(** * Randomized flyover generator: a shallow embedding and its properties

    This development embeds [randomized_flyover_generator.py] in Rocq and
    proves the properties its specification states.

    Modelling choices, kept throughout the file:
    - a Python [float] is a real number of [R]; rounding, infinities and NaN
      are not represented.  The module [math] is read as the mathematical
      functions it approximates ([math.radians x] is [x * (PI / 180)], as
      CPython computes it);
      two consequences are worth keeping in mind: [haversine] always has a
      value here, whereas on floats [math.sqrt (1 - a)] raises [ValueError]
      when rounding puts [a] above 1 (nearly antipodal points); and the
      divisor [111 * |cos (radians lat_center)|] is zero here at the poles,
      whereas no float has a cosine of exactly zero;
    - a Python [int] is an integer of [Z];
    - an exception is a value of [exn], and code that can raise returns a
      [result];
    - the global generator of the module [random] is an explicit tape of the
      successive values of [random.random()], threaded through the code;
    - [shapely] and [xml.etree.ElementTree] are libraries outside the
      repository: the former is the class [Shapely] of the three operations
      the script calls, the latter a tree datatype with the two queries the
      script uses; [float], [int], the formatting of floats and [os.path]
      are the class [Builtins]. *)

From Stdlib Require Import Reals Lra Lia ZArith List String Ascii Bool.
Import ListNotations.

Open Scope R_scope.

(** ** Exceptions and results *)

Inductive exn : Type :=
| ZeroDivisionError
| ValueError
| TypeError
| IndexError
| AttributeError
| ParseError.

(** [OutOfFuel] is not a Python outcome: it marks a run of the one [while]
    loop of the script that used up the iterations granted to it. *)
Inductive result (A : Type) : Type :=
| Ok (a : A)
| Raise (e : exn)
| OutOfFuel.

Arguments Ok {A} a.
Arguments Raise {A} e.
Arguments OutOfFuel {A}.

Definition bind {A B : Type} (r : result A) (k : A -> result B) : result B :=
  match r with
  | Ok a => k a
  | Raise e => Raise e
  | OutOfFuel => OutOfFuel
  end.

Notation "x <- r ;; k" := (bind r (fun x => k))
  (at level 61, r at next level, right associativity).
Notation "' p <- r ;; k" := (bind r (fun v => let 'p := v in k))
  (at level 61, p pattern, r at next level, right associativity).

(** ** The module [math] *)

Definition radians (x : R) : R := x * (PI / 180).

(** [math.atan2 y x]: the angle of the point [(x, y)], in (-PI, PI]. *)
Definition atan2 (y x : R) : R :=
  if Rlt_dec 0 x then atan (y / x)
  else if Rlt_dec x 0 then
    if Rle_dec 0 y then atan (y / x) + PI else atan (y / x) - PI
  else if Rlt_dec 0 y then PI / 2
  else if Rlt_dec y 0 then - (PI / 2)
  else 0.

(** Float division: [x / y] raises when the divisor is zero. *)
Definition truediv (x y : R) : result R :=
  if Req_dec_T y 0 then Raise ZeroDivisionError else Ok (x / y).

(** ** [haversine] *)

Definition haversine (lat1 lon1 lat2 lon2 : R) : R :=
  let R_earth := 6371 in
  let phi1 := radians lat1 in
  let phi2 := radians lat2 in
  let delta_phi := radians (lat2 - lat1) in
  let delta_lambda := radians (lon2 - lon1) in
  let a := sin (delta_phi / 2) ^ 2
           + cos phi1 * cos phi2 * sin (delta_lambda / 2) ^ 2 in
  let c := 2 * atan2 (sqrt a) (sqrt (1 - a)) in
  R_earth * c.

(** The local [a] of [haversine], the argument of its two square roots. *)
Definition haversine_a (lat1 lon1 lat2 lon2 : R) : R :=
  sin (radians (lat2 - lat1) / 2) ^ 2
  + cos (radians lat1) * cos (radians lat2)
    * sin (radians (lon2 - lon1) / 2) ^ 2.


(** The haversine formula as it is usually written, after the words of the
    specification (great-circle distance, Earth radius 6371 km): twice the
    radius times the arcsine of the square root of [h], where [hav] is the
    haversine of an angle and [h] the haversine of the central angle. *)
Definition hav (theta : R) : R := sin (theta / 2) ^ 2.

Definition great_circle_distance (lat1 lon1 lat2 lon2 : R) : R :=
  let h := hav (radians lat2 - radians lat1)
           + cos (radians lat1) * cos (radians lat2)
             * hav (radians lon2 - radians lon1) in
  2 * 6371 * asin (sqrt h).
(** ** The module [random] *)

(** The generator is the tape of the values [random.random()] will return,
    each of them in [0, 1). *)
Definition rng : Type := nat -> R.

Definition fair (g : rng) : Prop := forall n : nat, 0 <= g n < 1.

Definition random (g : rng) : R * rng := (g O, fun n => g (S n)).

(** [random.uniform a b] is [a + (b - a) * random.random()]. *)
Definition uniform (a b : R) (g : rng) : R * rng :=
  let (u, g') := random g in (a + (b - a) * u, g').

(** ** [shapely.geometry] *)

Record Point : Type := mkPoint { x : R; y : R }.

(** What the script uses of a shapely polygon: the constructor from a list
    of coordinate tuples (it validates its argument and may raise), the
    bounding box [(minx, miny, maxx, maxy)] and the interior test. *)
Class Shapely (polygon : Type) : Type := {
  Polygon : list (list R) -> result polygon;
  bounds : polygon -> R * R * R * R;
  contains : polygon -> Point -> bool
}.

(** ** [generate_random_kml] *)

(** A [gx:FlyTo] element of the playlist; heading, tilt, range and the two
    modes are constants of the template. *)
Record FlyTo : Type := mkFlyTo {
  duration : R;
  longitude : R;
  latitude : R;
  altitude : R
}.

(** The text returned is [kml_header], the rendered elements joined by
    newlines, and [kml_footer]: it is determined by the list of elements. *)
Definition kml : Type := list FlyTo.

(** [points[i]]. *)
Definition getitem {A : Type} (l : list A) (i : nat) : result A :=
  match nth_error l i with
  | Some a => Ok a
  | None => Raise IndexError
  end.

Section Generator.

Context {polygon : Type} `{Shapely polygon}.

(** The body of [for _ in range(points_count)], run [n] times. *)
Fixpoint radius_loop (n : nat) (lat_center lon_center radius : R)
    (points : list (R * R)) (g : rng) : result (list (R * R) * rng) :=
  match n with
  | O => Ok (points, g)
  | S n' =>
      let (u_lat, g1) := uniform (- radius) radius g in
      let rand_lat := lat_center + u_lat / 111 in
      let (u_lon, g2) := uniform (- radius) radius g1 in
      d_lon <- truediv u_lon (111 * Rabs (cos (radians lat_center))) ;;
      let rand_lon := lon_center + d_lon in
      radius_loop n' lat_center lon_center radius
        (points ++ [(rand_lat, rand_lon)]) g2
  end.

(** The body of [while len(points) < points_count], run once. *)
Definition polygon_body (poly : polygon) (bnds : R * R * R * R)
    (st : list (R * R) * rng) : list (R * R) * rng :=
  let '(points, g) := st in
  let '(minx, miny, maxx, maxy) := bnds in
  let (px, g1) := uniform minx maxx g in
  let (py, g2) := uniform miny maxy g1 in
  let random_point := mkPoint px py in
  if contains poly random_point
  then (points ++ [(y random_point, x random_point)], g2)
  else (points, g2).

Fixpoint polygon_loop (fuel : nat) (poly : polygon) (bnds : R * R * R * R)
    (points_count : Z) (st : list (R * R) * rng)
  : result (list (R * R) * rng) :=
  if (Z.of_nat (List.length (fst st)) <? points_count)%Z then
    match fuel with
    | O => OutOfFuel
    | S fuel' =>
        polygon_loop fuel' poly bnds points_count (polygon_body poly bnds st)
    end
  else Ok st.

(** The first half of [generate_random_kml]: the list [points]. *)
Definition sample_points (fuel : nat) (region_center : option (R * R))
    (radius : option R) (points_count : Z) (poly : option polygon) (g : rng)
  : result (list (R * R) * rng) :=
  match poly with
  | None =>
      match region_center with
      | None => Raise TypeError
      | Some (lat_center, lon_center) =>
          match radius with
          | Some radius =>
              radius_loop (Z.to_nat points_count) lat_center lon_center
                radius [] g
          | None =>
              if (0 <? points_count)%Z then Raise TypeError else Ok ([], g)
          end
      end
  | Some poly => polygon_loop fuel poly (bounds poly) points_count ([], g)
  end.

(** The value of [duration] in iteration [i] of the second loop. *)
Definition segment_duration (points : list (R * R)) (speed : R) (i : nat)
  : result R :=
  if Nat.eqb i 0 then Ok 5
  else
    '(lat, lon) <- getitem points i ;;
    '(prev_lat, prev_lon) <- getitem points (i - 1) ;;
    let distance := haversine prev_lat prev_lon lat lon in
    q <- truediv distance speed ;;
    Ok (q * 3600).

(** [for i in range(len(points))], over the indices still to visit. *)
Fixpoint flyto_loop (indices : list nat) (points : list (R * R))
    (altitude speed : R) (flytos : list FlyTo) : result (list FlyTo) :=
  match indices with
  | [] => Ok flytos
  | i :: rest =>
      '(lat, lon) <- getitem points i ;;
      duration <- segment_duration points speed i ;;
      flyto_loop rest points altitude speed
        (flytos ++ [mkFlyTo duration lon lat altitude])
  end.

Definition build_flytos (points : list (R * R)) (altitude speed : R)
  : result (list FlyTo) :=
  flyto_loop (seq 0 (List.length points)) points altitude speed [].

Definition generate_random_kml (fuel : nat) (region_center : option (R * R))
    (radius : option R) (points_count : Z) (altitude speed : R)
    (poly : option polygon) (g : rng) : result kml :=
  '(points, _) <- sample_points fuel region_center radius points_count poly g ;;
  build_flytos points altitude speed.

End Generator.
(** ** Strings *)

Open Scope string_scope.

(** The ASCII characters for which [str.isspace] holds.  A [string] is a
    sequence of one-byte characters here, so the whitespace of Unicode
    beyond ASCII, which [str.split] and [str.strip] also recognise, is not
    represented. *)
Definition is_space (c : ascii) : bool :=
  let n := nat_of_ascii c in
  ((9 <=? n) && (n <=? 13) || (28 <=? n) && (n <=? 32))%nat.

Definition snoc (s : string) (c : ascii) : string := s ++ String c "".

(** [s.split()]: the maximal runs of characters that are not whitespace. *)
Fixpoint split_ws_from (cur s : string) : list string :=
  match s with
  | "" => if String.eqb cur "" then [] else [cur]
  | String c rest =>
      if is_space c then
        if String.eqb cur "" then split_ws_from "" rest
        else cur :: split_ws_from "" rest
      else split_ws_from (snoc cur c) rest
  end.

Definition split_ws (s : string) : list string := split_ws_from "" s.

(** [s.split(sep)] for a separator of one character. *)
Fixpoint split_on_from (sep : ascii) (cur s : string) : list string :=
  match s with
  | "" => [cur]
  | String c rest =>
      if Ascii.eqb c sep then cur :: split_on_from sep "" rest
      else split_on_from sep (snoc cur c) rest
  end.

Definition split_on (sep : ascii) (s : string) : list string :=
  split_on_from sep "" s.

Fixpoint lstrip (s : string) : string :=
  match s with
  | "" => ""
  | String c rest => if is_space c then lstrip rest else s
  end.

Definition rev_string (s : string) : string :=
  string_of_list_ascii (rev (list_ascii_of_string s)).

(** [s.strip()]. *)
Definition strip (s : string) : string :=
  rev_string (lstrip (rev_string (lstrip s))).

Definition lower_ascii (c : ascii) : ascii :=
  let n := nat_of_ascii c in
  if ((65 <=? n) && (n <=? 90))%nat then ascii_of_nat (n + 32) else c.

(** [s.lower()], on ASCII. *)
Fixpoint lower (s : string) : string :=
  match s with
  | "" => ""
  | String c rest => String (lower_ascii c) (lower rest)
  end.

(** ** Builtins of Python and [os.path] *)

(** [float_of_str] and [int_of_str] are [float] and [int] on a string, [None]
    where they raise [ValueError]; [str_of_float] is the formatting of a float
    in an f-string; [path_stem p] is
    [os.path.splitext(os.path.basename(p))[0]]. *)
Class Builtins : Type := {
  float_of_str : string -> option R;
  int_of_str : string -> option Z;
  str_of_float : R -> string;
  path_stem : string -> string
}.

Definition float `{Builtins} (s : string) : result R :=
  match float_of_str s with
  | Some r => Ok r
  | None => Raise ValueError
  end.

Definition int `{Builtins} (s : string) : result Z :=
  match int_of_str s with
  | Some z => Ok z
  | None => Raise ValueError
  end.

Fixpoint mapM {A B : Type} (f : A -> result B) (l : list A)
  : result (list B) :=
  match l with
  | [] => Ok []
  | a :: rest => b <- f a ;; bs <- mapM f rest ;; Ok (b :: bs)
  end.

(** ** [xml.etree.ElementTree] *)

#[warnings="-register-all"]
Inductive Element : Type :=
| Elem (tag : string) (text : option string) (children : list Element).

Definition tag (e : Element) : string := let 'Elem t _ _ := e in t.
Definition text (e : Element) : option string := let 'Elem _ t _ := e in t.

(** The elements below [e], at every depth, in document order. *)
Fixpoint descendants (e : Element) : list Element :=
  match e with
  | Elem _ _ children => flat_map (fun c => c :: descendants c) children
  end.

(** [e.findall(".//name")] and [e.find(".//name")], [name] a qualified tag. *)
Definition findall (name : string) (e : Element) : list Element :=
  filter (fun d => String.eqb (tag d) name) (descendants e).

Definition find (name : string) (e : Element) : option Element :=
  hd_error (findall name e).

Definition kml_ns : string := "{http://www.opengis.net/kml/2.2}".
Definition Placemark_tag : string := kml_ns ++ "Placemark".
Definition Polygon_tag : string := kml_ns ++ "Polygon".
Definition coordinates_tag : string := kml_ns ++ "coordinates".

(** ** The file system and the console *)

(** A path names nothing, or a file [ET.parse] rejects with [ParseError], or
    a well-formed document. *)
Inductive file : Type :=
| Missing
| Malformed
| Document (root : Element).

Definition filesystem : Type := string -> file.

Record world : Type := mkWorld {
  stdout : list string;
  written : list (string * kml)
}.

Definition io (A : Type) : Type := world -> world * result A.

Definition ret {A : Type} (a : A) : io A := fun w => (w, Ok a).

Definition lift {A : Type} (r : result A) : io A := fun w => (w, r).

Definition io_bind {A B : Type} (m : io A) (k : A -> io B) : io B :=
  fun w =>
    match m w with
    | (w', Ok a) => k a w'
    | (w', Raise e) => (w', Raise e)
    | (w', OutOfFuel) => (w', OutOfFuel)
    end.

Notation "x <~ m ;; k" := (io_bind m (fun x => k))
  (at level 61, m at next level, right associativity).

Definition print (line : string) : io unit :=
  fun w => (mkWorld (stdout w ++ [line]) (written w), Ok tt).

(** [with open(path, "w") as f: f.write(content)]. *)
Definition write_file (path : string) (content : kml) : io unit :=
  fun w => (mkWorld (stdout w) (written w ++ [(path, content)]), Ok tt).

(** [try: body except ValueError: handler], the only handler of the script. *)
Definition try_except_ValueError (body handler : io unit) : io unit :=
  fun w =>
    match body w with
    | (w', Raise ValueError) => handler w'
    | other => other
    end.

(** ** [parse_polygon_from_kml] and [main] *)

Section Script.

Context {polygon : Type} `{Shapely polygon} `{Builtins}.

(** The list comprehension of [parse_polygon_from_kml]: one tuple for each
    whitespace-separated item, made of the floats of its first two
    comma-separated components. *)
Definition coordinates_of (coordinates_text : string)
  : result (list (list R)) :=
  mapM (fun coord => mapM float (firstn 2 (split_on "," coord)))
       (split_ws coordinates_text).

(** What the body of the loop over the placemarks does once
    [polygon_element] is not [None]. *)
Definition polygon_of_element (polygon_element : Element)
  : result polygon :=
  match find coordinates_tag polygon_element with
  | None => Raise AttributeError
  | Some coordinates_element =>
      match text coordinates_element with
      | None => Raise AttributeError
      | Some t =>
          coordinates <- coordinates_of (strip t) ;;
          Polygon coordinates
      end
  end.

(** [for placemark in root.findall(...)]: [Ok None] stands for leaving the
    loop without a [return]. *)
Fixpoint placemark_loop (placemarks : list Element)
  : result (option polygon) :=
  match placemarks with
  | [] => Ok None
  | placemark :: rest =>
      match find Polygon_tag placemark with
      | Some polygon_element =>
          p <- polygon_of_element polygon_element ;; Ok (Some p)
      | None => placemark_loop rest
      end
  end.

Definition parse_polygon_from_kml (fs : filesystem) (kml_file_path : string)
  : io (option polygon) :=
  match fs kml_file_path with
  | Missing =>
      _ <~ print ("Error: File '" ++ kml_file_path ++ "' not found.") ;;
      ret None
  | Malformed => lift (Raise ParseError)
  | Document root =>
      found <~ lift (placemark_loop (findall Placemark_tag root)) ;;
      match found with
      | Some p => ret (Some p)
      | None =>
          _ <~ print "Error: No polygon found in the KML file." ;;
          ret None
      end
  end.

Definition usage : string :=
"
Usage Instructions:

This script generates a Google Earth KML file with random flythroughs.

Options:
1. Radius-based exploration:
   $ python3 randomized_flyover_generator.py radius <latitude> <longitude> <radius_in_km> <points_count> <altitude_in_meters> <speed_in_kmh>
   - <altitude_in_meters>: Altitude in meters above ground level.
   - <speed_in_kmh>: Speed in kilometers per hour for the camera flyover.
   Example:
   $ python3 randomized_flyover_generator.py radius 37.7749 -122.4194 10 10 1500 100

2. Polygon-based exploration:
   $ python3 randomized_flyover_generator.py polygon <path_to_kml> <points_count> <altitude_in_meters> <speed_in_kmh>
   - <altitude_in_meters>: Altitude in meters above ground level.
   - <speed_in_kmh>: Speed in kilometers per hour for the camera flyover.
   Example:
   $ python3 randomized_flyover_generator.py polygon path/to/your/polygon.kml 10 1500 100
        ".

Definition invalid_numerical_input : string :=
  "Error: Invalid numerical input. Please provide valid latitude, longitude, radius, points count, altitude, and speed.".

(** The two radius branches of [main]; they differ in the name of the file
    they write, [head ++ ... ++ tail]. *)
Definition radius_branch (fuel : nat) (g : rng) (head tail : string)
    (lat_s lon_s radius_s count_s altitude_s speed_s : string) : io unit :=
  try_except_ValueError
    (lat <~ lift (float lat_s) ;;
     lon <~ lift (float lon_s) ;;
     radius <~ lift (float radius_s) ;;
     points_count <~ lift (int count_s) ;;
     altitude <~ lift (float altitude_s) ;;
     speed <~ lift (float speed_s) ;;
     let region_center := (lat, lon) in
     random_kml_content <~
       lift (generate_random_kml fuel (Some region_center) (Some radius)
               points_count altitude speed None g) ;;
     let file_path :=
       head ++ str_of_float lat ++ "_" ++ str_of_float lon ++ "_radius_"
       ++ str_of_float radius ++ tail in
     _ <~ write_file file_path random_kml_content ;;
     print ("Radius-based flythrough KML saved to " ++ file_path))
    (print invalid_numerical_input).

Definition polygon_branch (fuel : nat) (fs : filesystem) (g : rng)
    (polygon_kml_path count_s altitude_s speed_s : string) : io unit :=
  try_except_ValueError
    (points_count <~ lift (int count_s) ;;
     altitude <~ lift (float altitude_s) ;;
     speed <~ lift (float speed_s) ;;
     parsed <~ parse_polygon_from_kml fs polygon_kml_path ;;
     match parsed with
     | Some poly =>
         random_kml_content_polygon <~
           lift (generate_random_kml fuel None None points_count altitude
                   speed (Some poly) g) ;;
         let file_path_polygon :=
           "flythrough_" ++ path_stem polygon_kml_path ++ ".kml" in
         _ <~ write_file file_path_polygon random_kml_content_polygon ;;
         print ("Polygon-based flythrough KML saved to " ++ file_path_polygon)
     | None => ret tt
     end)
    (print "Error: Invalid input. Please provide a valid points count, altitude, and speed.").

(** [main], on [sys.argv]; every index below is within the length tested
    before it is used. *)
Definition main (fuel : nat) (fs : filesystem) (g : rng)
    (argv : list string) : io unit :=
  let arg i := nth i argv "" in
  if (List.length argv <? 2)%nat then print usage
  else
    let option' := lower (arg 1%nat) in
    if String.eqb option' "radius" && (List.length argv =? 8)%nat then
      radius_branch fuel g "Flythrough_" "_flyover.kml"
        (arg 2%nat) (arg 3%nat) (arg 4%nat) (arg 5%nat) (arg 6%nat)
        (arg 7%nat)
    else if String.eqb option' "polygon" && (List.length argv =? 6)%nat then
      polygon_branch fuel fs g (arg 2%nat) (arg 3%nat) (arg 4%nat)
        (arg 5%nat)
    else if (List.length argv =? 7)%nat then
      radius_branch fuel g "flythrough_" ".kml"
        (arg 1%nat) (arg 2%nat) (arg 3%nat) (arg 4%nat) (arg 5%nat)
        (arg 6%nat)
    else
      _ <~ print "Error: Invalid arguments provided." ;;
      print "Run the script without arguments for usage instructions.".

(** A run of the script from an empty console. *)
Definition run (fuel : nat) (fs : filesystem) (g : rng) (argv : list string)
  : world * result unit :=
  main fuel fs g argv (mkWorld [] []).

End Script.

(** ** Instances used by the examples *)

(** Axis-parallel rectangles, kept as their bounding box.  The constructor
    reads the box off the first and third corners of a ring listed from the
    lower left corner; the interior is the open box. *)
Definition box : Type := (R * R * R * R)%type.

Definition box_of_ring (coordinates : list (list R)) : result box :=
  match coordinates with
  | [x0; y0] :: _ :: [x1; y1] :: _ => Ok (x0, y0, x1, y1)
  | _ => Raise ValueError
  end.

Definition box_contains (b : box) (p : Point) : bool :=
  let '(minx, miny, maxx, maxy) := b in
  if Rlt_dec minx (x p) then
    if Rlt_dec (x p) maxx then
      if Rlt_dec miny (y p) then
        if Rlt_dec (y p) maxy then true else false
      else false
    else false
  else false.

#[export] Instance box_shapely : Shapely box := {
  Polygon := box_of_ring;
  bounds := fun b => b;
  contains := box_contains
}.

(** Unsigned and signed decimal literals: a part of what [int] and [float]
    accept (no exponent, no surrounding blanks, no leading plus sign),
    enough for the command lines and the files of the examples. *)
Definition digit_of (c : ascii) : option Z :=
  let n := nat_of_ascii c in
  if ((48 <=? n) && (n <=? 57))%nat then Some (Z.of_nat (n - 48)) else None.

Fixpoint digits_from (acc : Z) (s : string) : option Z :=
  match s with
  | "" => Some acc
  | String c rest =>
      match digit_of c with
      | Some d => digits_from (10 * acc + d) rest
      | None => None
      end
  end.

Definition unsigned_literal (s : string) : option Z :=
  match s with
  | "" => None
  | _ => digits_from 0 s
  end.

Definition int_literal (s : string) : option Z :=
  match s with
  | String "-" rest => option_map Z.opp (unsigned_literal rest)
  | _ => unsigned_literal s
  end.

Definition unsigned_float_literal (s : string) : option R :=
  match split_on "." s with
  | [whole] => option_map IZR (unsigned_literal whole)
  | [whole; part] =>
      match unsigned_literal whole, unsigned_literal part with
      | Some w, Some p =>
          Some (IZR w + IZR p / IZR (10 ^ Z.of_nat (String.length part)))
      | _, _ => None
      end
  | _ => None
  end.

Definition float_literal (s : string) : option R :=
  match s with
  | String "-" rest => option_map Ropp (unsigned_float_literal rest)
  | _ => unsigned_float_literal s
  end.

(** The last component of a path, up to its last dot; as in
    [os.path.splitext], dots that begin the name do not start an
    extension. *)
Definition stem_of (path : string) : string :=
  let name := last (split_on "/" path) "" in
  match rev (split_on "." name) with
  | _ :: (_ :: _) as front =>
      if forallb (String.eqb "") front then name
      else String.concat "." (rev front)
  | _ => name
  end.

(** The text of a float in an f-string cannot be computed from a real
    number; the instance gives the text of the float zero, the one value the
    examples format. *)
#[export] Instance decimal_builtins : Builtins := {
  float_of_str := float_literal;
  int_of_str := int_literal;
  str_of_float := fun _ => "0.0";
  path_stem := stem_of
}.

(** Tapes: every draw [0], every draw [1/2], and [1/2, 1/2, 0, 1/2, ...]. *)
Definition zeros : rng := fun _ => 0%R.
Definition halves : rng := fun _ => (1 / 2)%R.
Definition half_half_zero : rng :=
  fun n => match n with 2%nat => 0%R | _ => (1 / 2)%R end.

(** A document with two placemarks, each holding a polygon. *)
Definition square_ring : string := "
  0,0,0 2,0,0 2,2,0 0,2,0 0,0,0
".

Definition other_ring : string := "5,5 6,5 6,6 5,6 5,5".

Definition placemark_with (ring : string) : Element :=
  Elem Placemark_tag None
    [Elem (kml_ns ++ "name") (Some "area") [];
     Elem Polygon_tag None
       [Elem (kml_ns ++ "outerBoundaryIs") None
          [Elem (kml_ns ++ "LinearRing") None
             [Elem coordinates_tag (Some ring) []]]]].

Definition two_polygons : Element :=
  Elem (kml_ns ++ "kml") None
    [Elem (kml_ns ++ "Document") None
       [Elem Placemark_tag None [Elem (kml_ns ++ "Point") None []];
        placemark_with square_ring;
        placemark_with other_ring]].

Definition disk : filesystem :=
  fun path =>
    if String.eqb path "square.kml" then Document two_polygons
    else if String.eqb path "broken.kml" then Malformed
    else Missing.

Close Scope string_scope.

(** ** Proof automation *)

(** Settles the comparisons of reals met when the code is run on an example:
    the side of each test is found by linear arithmetic. *)
Ltac decide_reals :=
  repeat match goal with
    | |- context [Rlt_dec ?a ?b] =>
        destruct (Rlt_dec a b); [ try (exfalso; lra) | try (exfalso; lra) ]
    | |- context [Rle_dec ?a ?b] =>
        destruct (Rle_dec a b); [ try (exfalso; lra) | try (exfalso; lra) ]
    | |- context [Req_dec_T ?a ?b] =>
        destruct (Req_dec_T a b); [ try (exfalso; lra) | try (exfalso; lra) ]
    end.

(** The points a document visits, as [(latitude, longitude)] pairs. *)
Definition points_of (doc : kml) : list (R * R) :=
  map (fun f => (latitude f, longitude f)) doc.

(** What one element of the playlist records of iteration [i]. *)
Definition flyto_at (points : list (R * R)) (altitude speed : R) (i : nat)
    (f : FlyTo) : Prop :=
  exists lat lon d,
    nth_error points i = Some (lat, lon) /\
    segment_duration points speed i = Ok d /\
    f = mkFlyTo d lon lat altitude.

(** A point as [polygon.contains] sees it: [Point(longitude, latitude)]. *)
Definition inside {polygon : Type} `{Shapely polygon} (poly : polygon)
    (p : R * R) : Prop :=
  contains poly (mkPoint (snd p) (fst p)) = true.

(** A point within the degree-approximated square of half-side [bound]
    kilometres around the centre. *)
Definition in_square (lat_center lon_center bound : R) (p : R * R) : Prop :=
  Rabs ((fst p - lat_center) * 111) <= bound /\
  Rabs ((snd p - lon_center) * (111 * Rabs (cos (radians lat_center))))
  <= bound.

(** The point drawn by iteration [n] of the polygon loop started on [g]. *)
Definition drawn (bnds : R * R * R * R) (g : rng) (n : nat) : Point :=
  let '(minx, miny, maxx, maxy) := bnds in
  mkPoint (minx + (maxx - minx) * g (2 * n)%nat)
          (miny + (maxy - miny) * g (2 * n + 1)%nat).


(** ** Further definitions used by the properties beyond the specification *)

(** How many of the first [k] points drawn by the polygon loop started on
    [g] the polygon contains. *)
Fixpoint accepted {polygon : Type} `{Shapely polygon} (poly : polygon)
    (bnds : R * R * R * R) (g : rng) (k : nat) : nat :=
  match k with
  | O => 0
  | S k' =>
      (if contains poly (drawn bnds g 0) then 1 else 0)
      + accepted poly bnds (fun n => g (S (S n))) k'
  end.

(** The point iteration [i] of the radius loop makes of draws [2 * i] and
    [2 * i + 1] of the tape it started on. *)
Definition radius_point (lat_center lon_center radius : R) (g : rng)
    (i : nat) : R * R :=
  (lat_center + (- radius + (radius - - radius) * g (2 * i)%nat) / 111,
   lon_center + (- radius + (radius - - radius) * g (2 * i + 1)%nat)
                / (111 * Rabs (cos (radians lat_center)))).

(** The names of the files the three branches of [main] write. *)
Definition radius_file_name `{Builtins} (head tail : string)
    (lat lon radius : R) : string :=
  (head ++ str_of_float lat ++ "_" ++ str_of_float lon ++ "_radius_"
   ++ str_of_float radius ++ tail)%string.

Definition polygon_file_name `{Builtins} (polygon_kml_path : string)
  : string :=
  ("flythrough_" ++ path_stem polygon_kml_path ++ ".kml")%string.

Open Scope string_scope.

Definition invalid_polygon_input : string :=
  "Error: Invalid input. Please provide a valid points count, altitude, and speed.".

(** A document whose only polygon is outside every placemark, one whose
    polygon has no coordinates, and one whose coordinates are not numbers. *)
Definition stray_polygon : Element :=
  Elem (kml_ns ++ "kml") None
    [Elem (kml_ns ++ "Document") None
       [Elem Placemark_tag None [Elem (kml_ns ++ "Point") None []];
        Elem Polygon_tag None
          [Elem coordinates_tag (Some "0,0 1,0 1,1 0,0") []]]].

Definition hollow_polygon : Element :=
  Elem (kml_ns ++ "kml") None
    [Elem Placemark_tag None [Elem Polygon_tag None []]].

Definition worded_polygon : Element :=
  Elem (kml_ns ++ "kml") None
    [Elem Placemark_tag None
       [Elem Polygon_tag None
          [Elem coordinates_tag (Some "0,0 1,north 1,1 0,0") []]]].

Definition shelf : filesystem :=
  fun path =>
    if String.eqb path "square.kml" then Document two_polygons
    else if String.eqb path "stray.kml" then Document stray_polygon
    else if String.eqb path "hollow.kml" then Document hollow_polygon
    else if String.eqb path "worded.kml" then Document worded_polygon
    else if String.eqb path "broken.kml" then Malformed
    else Missing.

Close Scope string_scope.

(** What every run of the script comes down to: a run that ends normally
    has printed something and written at most one file; a run cut short has
    neither printed nor written, and it is not cut short by [ValueError]. *)
Definition tidy (out : world * result unit) : Prop :=
  match snd out with
  | Ok _ =>
      stdout (fst out) <> [] /\ (List.length (written (fst out)) <= 1)%nat
  | Raise e => e <> ValueError /\ fst out = mkWorld [] []
  | OutOfFuel => fst out = mkWorld [] []
  end.

(** The six command-line strings of the radius forms all read as numbers. *)
Definition radius_arguments `{Builtins}
    (lat_s lon_s radius_s count_s altitude_s speed_s : string)
    (lat lon radius : R) (points_count : Z) (alt speed : R) : Prop :=
  float_of_str lat_s = Some lat /\ float_of_str lon_s = Some lon /\
  float_of_str radius_s = Some radius /\
  int_of_str count_s = Some points_count /\
  float_of_str altitude_s = Some alt /\ float_of_str speed_s = Some speed.
(** ** Facts about [math] and [haversine] *)

Section HaversineFacts.

Lemma haversine_eq (lat1 lon1 lat2 lon2 : R) :
  haversine lat1 lon1 lat2 lon2 =
  6371 * (2 * atan2 (sqrt (haversine_a lat1 lon1 lat2 lon2))
                    (sqrt (1 - haversine_a lat1 lon1 lat2 lon2))).
Proof. reflexivity. Qed.

Lemma atan2_0_1 : atan2 0 1 = 0.
Proof.
  unfold atan2.
  destruct (Rlt_dec 0 1) as [_ | H]; [ | lra].
  replace (0 / 1) with 0 by field.
  apply atan_0.
Qed.

Lemma atan2_nonneg (y x : R) : 0 <= y -> 0 <= x -> 0 <= atan2 y x.
Proof.
  intros Hy Hx. unfold atan2.
  destruct (Rlt_dec 0 x) as [Hpos | Hnpos].
  - destruct (Req_dec_T y 0) as [-> | Hne].
    + replace (0 / x) with 0 by (field; lra). rewrite atan_0. lra.
    + left. rewrite <- atan_0. apply atan_increasing.
      apply Rdiv_lt_0_compat; lra.
  - destruct (Rlt_dec x 0); [lra | ].
    destruct (Rlt_dec 0 y).
    + pose proof PI_RGT_0. lra.
    + destruct (Rlt_dec y 0); lra.
Qed.

Lemma atan2_pos (y x : R) : 0 < y -> 0 <= x -> 0 < atan2 y x.
Proof.
  intros Hy Hx. unfold atan2.
  destruct (Rlt_dec 0 x) as [Hpos | Hnpos].
  - rewrite <- atan_0. apply atan_increasing.
    apply Rdiv_lt_0_compat; lra.
  - destruct (Rlt_dec x 0); [lra | ].
    destruct (Rlt_dec 0 y); [ | lra].
    pose proof PI_RGT_0. lra.
Qed.

(** With [D] half the latitude difference and [S] half the latitude sum,
    [cos phi1 * cos phi2] is [cos S ^ 2 - sin D ^ 2]. *)
Lemma cos_cos_half (S D : R) :
  cos (S - D) * cos (S + D) = cos S ^ 2 - sin D ^ 2.
Proof.
  rewrite cos_minus, cos_plus.
  pose proof (sin2_cos2 S) as HS. pose proof (sin2_cos2 D) as HD.
  unfold Rsqr in HS, HD. nra.
Qed.

(** [a] is a convex combination of a squared sine and a squared cosine. *)
Lemma haversine_a_convex (lat1 lon1 lat2 lon2 : R) :
  let D := radians (lat2 - lat1) / 2 in
  let S := (radians lat1 + radians lat2) / 2 in
  let s := sin (radians (lon2 - lon1) / 2) ^ 2 in
  haversine_a lat1 lon1 lat2 lon2 = (1 - s) * sin D ^ 2 + s * cos S ^ 2.
Proof.
  intros D S s. unfold haversine_a.
  replace (radians lat1) with (S - D) by (unfold S, D, radians; field).
  replace (radians lat2) with (S + D) by (unfold S, D, radians; field).
  rewrite cos_cos_half. fold D. fold s. ring.
Qed.

Lemma sq_sin_range (x : R) : 0 <= sin x ^ 2 <= 1.
Proof.
  pose proof (sin2_cos2 x) as H. unfold Rsqr in H.
  pose proof (pow2_ge_0 (sin x)). pose proof (pow2_ge_0 (cos x)).
  simpl in *. nra.
Qed.

Lemma sq_cos_range (x : R) : 0 <= cos x ^ 2 <= 1.
Proof.
  pose proof (sin2_cos2 x) as H. unfold Rsqr in H.
  pose proof (pow2_ge_0 (sin x)). pose proof (pow2_ge_0 (cos x)).
  simpl in *. nra.
Qed.

(** Over the reals the argument of the two square roots lies in [0, 1].
    On floats rounding can carry [a] just above 1 for nearly antipodal
    points, where [math.sqrt (1 - a)] raises [ValueError]; the embedding,
    which computes over the reals, does not represent that path. *)
Lemma haversine_a_range (lat1 lon1 lat2 lon2 : R) :
  0 <= haversine_a lat1 lon1 lat2 lon2 <= 1.
Proof.
  rewrite haversine_a_convex. cbv zeta.
  pose proof (sq_sin_range (radians (lon2 - lon1) / 2)).
  pose proof (sq_sin_range (radians (lat2 - lat1) / 2)).
  pose proof (sq_cos_range ((radians lat1 + radians lat2) / 2)).
  nra.
Qed.

Lemma haversine_a_sym (lat1 lon1 lat2 lon2 : R) :
  haversine_a lat1 lon1 lat2 lon2 = haversine_a lat2 lon2 lat1 lon1.
Proof.
  unfold haversine_a, radians.
  replace ((lat1 - lat2) * (PI / 180) / 2)
    with (- ((lat2 - lat1) * (PI / 180) / 2)) by field.
  replace ((lon1 - lon2) * (PI / 180) / 2)
    with (- ((lon2 - lon1) * (PI / 180) / 2)) by field.
  rewrite !sin_neg. ring.
Qed.

Lemma haversine_a_same (lat lon : R) : haversine_a lat lon lat lon = 0.
Proof.
  unfold haversine_a, radians.
  replace ((lat - lat) * (PI / 180) / 2) with 0 by field.
  replace ((lon - lon) * (PI / 180) / 2) with 0 by field.
  rewrite sin_0. ring.
Qed.

Lemma haversine_nonneg (lat1 lon1 lat2 lon2 : R) :
  0 <= haversine lat1 lon1 lat2 lon2.
Proof.
  rewrite haversine_eq.
  pose proof (atan2_nonneg _ _ (sqrt_pos (haversine_a lat1 lon1 lat2 lon2))
                (sqrt_pos (1 - haversine_a lat1 lon1 lat2 lon2))).
  nra.
Qed.

Lemma haversine_pos (lat1 lon1 lat2 lon2 : R) :
  0 < haversine_a lat1 lon1 lat2 lon2 -> 0 < haversine lat1 lon1 lat2 lon2.
Proof.
  intros Ha. rewrite haversine_eq.
  pose proof (atan2_pos _ _ (sqrt_lt_R0 _ Ha)
                (sqrt_pos (1 - haversine_a lat1 lon1 lat2 lon2))).
  nra.
Qed.

(** The code computes the arcsine of the formula through [atan2]. *)
Lemma haversine_great_circle (lat1 lon1 lat2 lon2 : R) :
  haversine lat1 lon1 lat2 lon2 = great_circle_distance lat1 lon1 lat2 lon2.
Proof.
  rewrite haversine_eq. unfold great_circle_distance, hav. cbv zeta.
  replace (radians lat2 - radians lat1) with (radians (lat2 - lat1))
    by (unfold radians; ring).
  replace (radians lon2 - radians lon1) with (radians (lon2 - lon1))
    by (unfold radians; ring).
  fold (haversine_a lat1 lon1 lat2 lon2).
  pose proof (haversine_a_range lat1 lon1 lat2 lon2) as [Hlo Hhi].
  set (a := haversine_a lat1 lon1 lat2 lon2) in *.
  enough (Hc : atan2 (sqrt a) (sqrt (1 - a)) = asin (sqrt a))
    by (rewrite Hc; ring).
  destruct (Req_dec_T a 1) as [-> | Hne].
  - replace (1 - 1) with 0 by ring. rewrite sqrt_0, sqrt_1, asin_1.
    unfold atan2.
    destruct (Rlt_dec 0 0); [lra | ]. destruct (Rlt_dec 0 1); [reflexivity | lra].
  - assert (Hpos : 0 < sqrt (1 - a)) by (apply sqrt_lt_R0; lra).
    assert (Hlt : sqrt a < 1).
    { rewrite <- sqrt_1. apply sqrt_lt_1_alt. lra. }
    pose proof (sqrt_pos a).
    rewrite asin_atan by lra. rewrite Rsqr_sqrt by assumption.
    unfold atan2. destruct (Rlt_dec 0 (sqrt (1 - a))); [reflexivity | lra].
Qed.

End HaversineFacts.

(** C5. [haversine] vanishes on identical arguments and is symmetric in its
  two points. *)
Theorem haversine_zero_and_symmetric :
(forall lat lon : R, haversine lat lon lat lon = 0) /\
(forall lat1 lon1 lat2 lon2 : R,
   haversine lat1 lon1 lat2 lon2 = haversine lat2 lon2 lat1 lon1).
Proof.
split.
- intros lat lon. rewrite haversine_eq, haversine_a_same.
  replace (1 - 0) with 1 by ring.
  rewrite sqrt_0, sqrt_1, atan2_0_1. ring.
- intros lat1 lon1 lat2 lon2. rewrite !haversine_eq.
  now rewrite (haversine_a_sym lat1 lon1 lat2 lon2).
Qed.

(** ** The second loop: durations and elements *)

Section FlytoFacts.

Lemma truediv_ok (a b : R) : b <> 0 -> truediv a b = Ok (a / b).
Proof.
  intros Hb. unfold truediv. destruct (Req_dec_T b 0); [contradiction | reflexivity].
Qed.

Lemma truediv_zero (a : R) : truediv a 0 = Raise ZeroDivisionError.
Proof.
  unfold truediv. destruct (Req_dec_T 0 0) as [_ | Hne]; [reflexivity | now elim Hne].
Qed.

Lemma truediv_inv (a b q : R) : truediv a b = Ok q -> b <> 0 /\ q = a / b.
Proof.
  unfold truediv. destruct (Req_dec_T b 0); [discriminate | ].
  intros [= <-]. now split.
Qed.

Lemma getitem_ok {A : Type} (l : list A) (i : nat) (a : A) :
  getitem l i = Ok a <-> nth_error l i = Some a.
Proof.
  unfold getitem. destruct (nth_error l i); split; congruence.
Qed.

Lemma segment_duration_first (points : list (R * R)) (speed : R) :
  segment_duration points speed 0 = Ok 5.
Proof. reflexivity. Qed.

(** The duration of a later segment, when it is computed, is the distance
    from the previous point over the speed, times 3600. *)
Lemma segment_duration_later (points : list (R * R)) (speed d : R) (i : nat) :
  segment_duration points speed (S i) = Ok d ->
  exists prev_lat prev_lon lat lon,
    nth_error points i = Some (prev_lat, prev_lon) /\
    nth_error points (S i) = Some (lat, lon) /\
    speed <> 0 /\
    d = haversine prev_lat prev_lon lat lon / speed * 3600.
Proof.
  unfold segment_duration. cbn [Nat.eqb].
  replace (S i - 1)%nat with i by lia.
  destruct (getitem points (S i)) as [[lat lon] | | ] eqn:Hcur; try discriminate.
  destruct (getitem points i) as [[plat plon] | | ] eqn:Hprev; try discriminate.
  cbn [bind].
  destruct (truediv (haversine plat plon lat lon) speed) as [q | | ] eqn:Hq;
    try discriminate.
  cbn [bind]. intros [= <-].
  apply truediv_inv in Hq as [Hs ->].
  apply getitem_ok in Hcur, Hprev.
  now exists plat, plon, lat, lon.
Qed.

Lemma segment_duration_total (points : list (R * R)) (speed : R) (i : nat) :
  (i < List.length points)%nat -> speed <> 0 \/ i = 0%nat ->
  exists d, segment_duration points speed i = Ok d.
Proof.
  intros Hi Hs. destruct i as [ | i]; [now exists 5 | ].
  destruct Hs as [Hs | Hs]; [ | discriminate].
  destruct (nth_error points (S i)) as [[lat lon] | ] eqn:Hcur;
    [ | apply nth_error_None in Hcur; lia].
  destruct (nth_error points i) as [[plat plon] | ] eqn:Hprev;
    [ | apply nth_error_None in Hprev; lia].
  unfold segment_duration. cbn [Nat.eqb].
  replace (S i - 1)%nat with i by lia.
  apply getitem_ok in Hcur, Hprev. rewrite Hcur, Hprev. cbn [bind].
  rewrite truediv_ok by assumption. cbn [bind]. eauto.
Qed.

Lemma flyto_loop_inv (points : list (R * R)) (altitude speed : R) :
  forall indices flytos doc,
    flyto_loop indices points altitude speed flytos = Ok doc ->
    exists added,
      doc = flytos ++ added /\
      Forall2 (flyto_at points altitude speed) indices added.
Proof.
  induction indices as [ | i rest IH]; intros flytos doc Hrun.
  - injection Hrun as <-. exists []. rewrite app_nil_r. split; constructor.
  - cbn [flyto_loop] in Hrun.
    destruct (getitem points i) as [[lat lon] | | ] eqn:Hi; try discriminate.
    cbn [bind] in Hrun.
    destruct (segment_duration points speed i) as [d | | ] eqn:Hd;
      try discriminate.
    cbn [bind] in Hrun.
    apply IH in Hrun as (added & -> & Hall).
    exists (mkFlyTo d lon lat altitude :: added). split.
    + now rewrite <- app_assoc.
    + constructor; [ | assumption].
      apply getitem_ok in Hi. now exists lat, lon, d.
Qed.

Lemma flyto_loop_total (points : list (R * R)) (altitude speed : R) :
  forall indices flytos,
    Forall (fun i => (i < List.length points)%nat /\ (speed <> 0 \/ i = 0%nat))
      indices ->
    exists doc, flyto_loop indices points altitude speed flytos = Ok doc.
Proof.
  induction indices as [ | i rest IH]; intros flytos Hall.
  - now exists flytos.
  - inversion Hall as [ | ? ? [Hi Hs] Hrest]; subst.
    cbn [flyto_loop].
    destruct (nth_error points i) as [[lat lon] | ] eqn:Hnth;
      [ | apply nth_error_None in Hnth; lia].
    apply getitem_ok in Hnth. rewrite Hnth. cbn [bind].
    destruct (segment_duration_total points speed i Hi Hs) as [d ->].
    cbn [bind]. now apply IH.
Qed.

Lemma Forall2_seq_nth {A : Type} (P : nat -> A -> Prop) :
  forall (l : list A) (start len : nat),
    Forall2 P (seq start len) l ->
    List.length l = len /\
    forall i a, nth_error l i = Some a -> P (start + i)%nat a.
Proof.
  induction l as [ | a l IH]; intros start len Hall.
  - inversion Hall as [Hseq | ]. destruct len; [ | discriminate].
    split; [reflexivity | ]. intros [ | i] a0; discriminate.
  - destruct len as [ | len]; [inversion Hall | ].
    cbn [seq] in Hall. inversion Hall as [ | ? ? ? ? Hhead Htail]; subst.
    apply IH in Htail as [Hlen Hnth]. split; [cbn; now rewrite Hlen | ].
    intros [ | i] a0 Hi.
    + injection Hi as <-. now rewrite Nat.add_0_r.
    + cbn in Hi. apply Hnth in Hi. now rewrite Nat.add_succ_r.
Qed.

(** The document has one element for each point, in order, and element [i]
    is what iteration [i] records. *)
Lemma build_flytos_inv (points : list (R * R)) (altitude speed : R)
    (doc : kml) :
  build_flytos points altitude speed = Ok doc ->
  List.length doc = List.length points /\
  forall i f, nth_error doc i = Some f -> flyto_at points altitude speed i f.
Proof.
  unfold build_flytos. intros Hrun.
  apply flyto_loop_inv in Hrun as (added & -> & Hall).
  now apply Forall2_seq_nth in Hall.
Qed.

Lemma build_flytos_points (points : list (R * R)) (altitude speed : R)
    (doc : kml) :
  build_flytos points altitude speed = Ok doc -> points_of doc = points.
Proof.
  intros Hrun. apply build_flytos_inv in Hrun as [Hlen Hnth].
  apply nth_error_ext. intros i. unfold points_of. rewrite nth_error_map.
  destruct (nth_error doc i) as [f | ] eqn:Hf; cbn.
  - apply Hnth in Hf as (lat & lon & d & Hp & _ & ->). now rewrite Hp.
  - symmetry. apply nth_error_None. apply nth_error_None in Hf. lia.
Qed.

Lemma build_flytos_total (points : list (R * R)) (altitude speed : R) :
  speed <> 0 \/ (List.length points <= 1)%nat ->
  exists doc, build_flytos points altitude speed = Ok doc.
Proof.
  intros Hs. apply flyto_loop_total. apply Forall_forall. intros i Hin.
  apply in_seq in Hin. split; [lia | ]. destruct Hs; [now left | right; lia].
Qed.

End FlytoFacts.

(** ** The first loop: sampling *)

Section SamplingFacts.

Context {polygon : Type} `{Shapely polygon}.

Lemma fair_tail (g : rng) : fair g -> fair (fun n => g (S n)).
Proof. intros Hg n. apply Hg. Qed.

(** A draw of [random.uniform(-radius, radius)] is at most [|radius|] away
    from zero. *)
Lemma uniform_symmetric_bound (radius u : R) :
  0 <= u < 1 -> Rabs (- radius + (radius - - radius) * u) <= Rabs radius.
Proof.
  intros Hu. unfold Rabs.
  destruct (Rcase_abs (- radius + (radius - - radius) * u));
    destruct (Rcase_abs radius); nra.
Qed.

Lemma radius_loop_inv (lat_center lon_center radius : R)
    (P : R * R -> Prop) :
  (forall u v, 0 <= u < 1 -> 0 <= v < 1 ->
     cos (radians lat_center) <> 0 ->
     P (lat_center + (- radius + (radius - - radius) * u) / 111,
        lon_center + (- radius + (radius - - radius) * v)
                     / (111 * Rabs (cos (radians lat_center))))) ->
  forall n points g points' g',
    fair g -> Forall P points ->
    radius_loop n lat_center lon_center radius points g = Ok (points', g') ->
    Forall P points' /\ List.length points' = (List.length points + n)%nat.
Proof.
  intros HP. induction n as [ | n IH]; intros points g points' g' Hg Hall Hrun.
  - injection Hrun as <- <-. split; [assumption | lia].
  - cbn [radius_loop uniform random] in Hrun.
    destruct (truediv _ _) as [d_lon | | ] eqn:Hdiv in Hrun; try discriminate.
    cbn [bind] in Hrun. apply truediv_inv in Hdiv as [Hne ->].
    apply IH in Hrun as [Hall' Hlen].
    + split; [assumption | ]. rewrite Hlen, length_app. cbn. lia.
    + intros k. apply (Hg (S (S k))).
    + apply Forall_app. split; [assumption | ]. constructor; [ | constructor].
      apply HP; [apply (Hg 0%nat) | apply (Hg 1%nat) | ].
      intros Hcos. apply Hne. rewrite Hcos, Rabs_R0. ring.
Qed.

Lemma radius_loop_total (lat_center lon_center radius : R) :
  cos (radians lat_center) <> 0 ->
  forall n points g,
    exists points' g',
      radius_loop n lat_center lon_center radius points g = Ok (points', g').
Proof.
  intros Hcos. induction n as [ | n IH]; intros points g.
  - now exists points, g.
  - cbn [radius_loop uniform random].
    rewrite truediv_ok.
    + cbn [bind]. apply IH.
    + apply Rmult_integral_contrapositive_currified; [lra | ].
      now apply Rabs_no_R0.
Qed.

Lemma in_square_point (lat_center lon_center radius u v : R) :
  0 <= u < 1 -> 0 <= v < 1 -> cos (radians lat_center) <> 0 ->
  in_square lat_center lon_center (Rabs radius)
    (lat_center + (- radius + (radius - - radius) * u) / 111,
     lon_center + (- radius + (radius - - radius) * v)
                  / (111 * Rabs (cos (radians lat_center)))).
Proof.
  intros Hu Hv Hcos. unfold in_square. cbn [fst snd].
  assert (Hc : Rabs (cos (radians lat_center)) <> 0) by now apply Rabs_no_R0.
  split.
  - replace ((lat_center + (- radius + (radius - - radius) * u) / 111
              - lat_center) * 111)
      with (- radius + (radius - - radius) * u) by field.
    now apply uniform_symmetric_bound.
  - replace ((lon_center + (- radius + (radius - - radius) * v)
                           / (111 * Rabs (cos (radians lat_center)))
              - lon_center) * (111 * Rabs (cos (radians lat_center))))
      with (- radius + (radius - - radius) * v) by (field; assumption).
    now apply uniform_symmetric_bound.
Qed.

(** One iteration of the polygon loop keeps the list or appends to it the
    point it drew, and it appends only a point the polygon contains. *)
Lemma polygon_body_spec (poly : polygon) (bnds : R * R * R * R)
    (points : list (R * R)) (g : rng) :
  let p := drawn bnds g 0 in
  polygon_body poly bnds (points, g) =
  (if contains poly p then points ++ [(y p, x p)] else points,
   fun n => g (S (S n))).
Proof.
  destruct bnds as [[[minx miny] maxx] maxy].
  cbn [polygon_body drawn uniform random x y Nat.mul Nat.add].
  now destruct (contains poly _).
Qed.

Lemma polygon_body_inside (poly : polygon) (bnds : R * R * R * R)
    (st : list (R * R) * rng) :
  Forall (inside poly) (fst st) ->
  Forall (inside poly) (fst (polygon_body poly bnds st)).
Proof.
  destruct st as [points g]. intros Hall. rewrite polygon_body_spec.
  cbv zeta. destruct (contains poly (drawn bnds g 0)) eqn:Hin; cbn [fst].
  - apply Forall_app. split; [assumption | ]. constructor; [ | constructor].
    unfold inside. cbn [fst snd]. now destruct (drawn bnds g 0).
  - assumption.
Qed.

Lemma polygon_iter_inside (poly : polygon) (bnds : R * R * R * R) (g : rng) :
  forall n,
    Forall (inside poly) (fst (Nat.iter n (polygon_body poly bnds) ([], g))).
Proof.
  induction n as [ | n IH]; [constructor | ].
  cbn [Nat.iter]. now apply polygon_body_inside.
Qed.

Lemma polygon_loop_inside (poly : polygon) (bnds : R * R * R * R)
    (points_count : Z) :
  forall fuel st st',
    polygon_loop fuel poly bnds points_count st = Ok st' ->
    Forall (inside poly) (fst st) -> Forall (inside poly) (fst st').
Proof.
  induction fuel as [ | fuel IH]; intros st st' Hrun Hall; cbn in Hrun;
    destruct (Z.of_nat (List.length (fst st)) <? points_count)%Z;
    try discriminate; try (injection Hrun as <-; assumption).
  eapply IH; [eassumption | ]. now apply polygon_body_inside.
Qed.

(** The loop, when it ends, ends with the list as long as requested. *)
Lemma polygon_loop_length (poly : polygon) (bnds : R * R * R * R)
    (points_count : Z) :
  forall fuel st st',
    polygon_loop fuel poly bnds points_count st = Ok st' ->
    (Z.of_nat (List.length (fst st)) <= Z.max 0 points_count)%Z ->
    Z.of_nat (List.length (fst st')) = Z.max 0 points_count.
Proof.
  induction fuel as [ | fuel IH]; intros st st' Hrun Hlen; cbn in Hrun;
    destruct (Z.of_nat (List.length (fst st)) <? points_count)%Z eqn:Hlt;
    try discriminate; try (injection Hrun as <-; lia).
  apply IH in Hrun; [assumption | ].
  destruct st as [points g]. rewrite polygon_body_spec. cbv zeta.
  cbn [fst] in *. destruct (contains poly _); cbn [fst]; [ | lia].
  rewrite length_app. cbn. lia.
Qed.

Lemma drawn_tail (bnds : R * R * R * R) (g : rng) (n : nat) :
  drawn bnds (fun k => g (S (S k))) n = drawn bnds g (S n).
Proof.
  destruct bnds as [[[minx miny] maxx] maxy]. unfold drawn.
  replace (2 * S n)%nat with (S (S (2 * n))) by lia.
  replace (S (S (2 * n)) + 1)%nat with (S (S (2 * n + 1))) by lia.
  reflexivity.
Qed.

Lemma polygon_loop_starves (poly : polygon) (bnds : R * R * R * R)
    (points_count : Z) (points : list (R * R)) :
  (Z.of_nat (List.length points) < points_count)%Z ->
  forall fuel g,
    (forall n, contains poly (drawn bnds g n) = false) ->
    polygon_loop fuel poly bnds points_count (points, g) = OutOfFuel.
Proof.
  intros Hlt. apply Z.ltb_lt in Hlt.
  induction fuel as [ | fuel IH]; intros g Hnever; cbn [polygon_loop fst];
    rewrite Hlt; [reflexivity | ].
  rewrite polygon_body_spec. cbv zeta. rewrite (Hnever 0%nat).
  apply IH. intros n. rewrite drawn_tail. apply Hnever.
Qed.

End SamplingFacts.

(** ** [generate_random_kml] as a whole *)

Section GenerateFacts.

Context {polygon : Type} `{Shapely polygon}.

Lemma generate_inv (fuel : nat) (region_center : option (R * R))
    (radius : option R) (points_count : Z) (altitude speed : R)
    (poly : option polygon) (g : rng) (doc : kml) :
  generate_random_kml fuel region_center radius points_count altitude speed
    poly g = Ok doc ->
  exists points g',
    sample_points fuel region_center radius points_count poly g
    = Ok (points, g') /\
    build_flytos points altitude speed = Ok doc /\
    points_of doc = points.
Proof.
  unfold generate_random_kml.
  destruct (sample_points _ _ _ _ _ _) as [[points g'] | | ]; try discriminate.
  cbn [bind]. intros Hdoc. exists points, g'.
  split; [reflexivity | split; [assumption | ]].
  now apply build_flytos_points in Hdoc.
Qed.

(** Enough accepted draws end the polygon loop. *)
Lemma polygon_loop_feeds (poly : polygon) (bnds : R * R * R * R)
    (points_count : Z) :
  forall fuel points g,
    (forall n, contains poly (drawn bnds g n) = true) ->
    (points_count - Z.of_nat (List.length points) <= Z.of_nat fuel)%Z ->
    exists st', polygon_loop fuel poly bnds points_count (points, g) = Ok st'.
Proof.
  induction fuel as [ | fuel IH]; intros points g Hall Hfuel;
    cbn [polygon_loop fst];
    destruct (Z.of_nat (List.length points) <? points_count)%Z eqn:Hlt;
    try (now eexists); [apply Z.ltb_lt in Hlt; lia | ].
  rewrite polygon_body_spec. cbv zeta. rewrite (Hall 0%nat).
  apply IH.
  - intros n. rewrite drawn_tail. apply Hall.
  - rewrite length_app. cbn [List.length]. lia.
Qed.

Lemma generate_polygon_total (fuel : nat) (region_center : option (R * R))
    (radius : option R) (points_count : Z) (altitude speed : R)
    (poly : polygon) (g : rng) :
  (forall n, contains poly (drawn (bounds poly) g n) = true) ->
  (points_count <= Z.of_nat fuel)%Z ->
  speed <> 0 ->
  exists doc,
    generate_random_kml fuel region_center radius points_count altitude speed
      (Some poly) g = Ok doc /\
    Z.of_nat (List.length doc) = Z.max 0 points_count.
Proof.
  intros Hall Hfuel Hspeed. unfold generate_random_kml, sample_points.
  destruct (polygon_loop_feeds poly (bounds poly) points_count fuel [] g Hall)
    as [[points g'] Hloop]; [cbn [List.length]; lia | ].
  rewrite Hloop. cbn [bind].
  destruct (build_flytos_total points altitude speed (or_introl Hspeed))
    as [doc Hdoc].
  exists doc. split; [assumption | ].
  apply polygon_loop_length in Hloop; [ | cbn; lia].
  apply build_flytos_inv in Hdoc as [-> _]. exact Hloop.
Qed.

Lemma radius_loop_length (lat_center lon_center radius : R) :
  forall n points g points' g',
    radius_loop n lat_center lon_center radius points g = Ok (points', g') ->
    List.length points' = (List.length points + n)%nat.
Proof.
  induction n as [ | n IH]; intros points g points' g' Hrun.
  - injection Hrun as <- <-. lia.
  - cbn [radius_loop uniform random] in Hrun.
    destruct (truediv _ _) in Hrun; try discriminate. cbn [bind] in Hrun.
    apply IH in Hrun. rewrite Hrun, length_app. cbn. lia.
Qed.

Lemma generate_radius_length (fuel : nat) (lat_center lon_center radius : R)
    (points_count : Z) (altitude speed : R) (g : rng) (doc : kml) :
  generate_random_kml fuel (Some (lat_center, lon_center)) (Some radius)
    points_count altitude speed (@None polygon) g = Ok doc ->
  Z.of_nat (List.length doc) = Z.max 0 points_count.
Proof.
  intros Hrun. apply generate_inv in Hrun as (points & g' & Hs & Hb & _).
  apply build_flytos_inv in Hb as [-> _]. cbn [sample_points] in Hs.
  apply radius_loop_length in Hs. rewrite Hs. cbn [List.length]. lia.
Qed.

Lemma generate_radius_total (fuel : nat) (lat_center lon_center radius : R)
    (points_count : Z) (altitude speed : R) (g : rng) :
  cos (radians lat_center) <> 0 \/ (points_count <= 0)%Z ->
  speed <> 0 \/ (points_count <= 1)%Z ->
  exists doc,
    generate_random_kml fuel (Some (lat_center, lon_center)) (Some radius)
      points_count altitude speed (@None polygon) g = Ok doc.
Proof.
  intros Hcos Hspeed. unfold generate_random_kml. cbn [sample_points].
  assert (Hloop : exists points g',
    radius_loop (Z.to_nat points_count) lat_center lon_center radius [] g
    = Ok (points, g')).
  { destruct Hcos as [Hcos | Hle]; [now apply radius_loop_total | ].
    replace (Z.to_nat points_count) with 0%nat by lia. now exists [], g. }
  destruct Hloop as (points & g' & Hloop). rewrite Hloop. cbn [bind].
  apply build_flytos_total. destruct Hspeed as [Hs | Hle]; [now left | right].
  apply radius_loop_length in Hloop. cbn [List.length] in Hloop. lia.
Qed.

Lemma polygon_loop_returns_iff (poly : polygon) (bnds : R * R * R * R)
    (points_count : Z) :
  forall fuel points g,
    (exists st',
       polygon_loop fuel poly bnds points_count (points, g) = Ok st') <->
    (points_count - Z.of_nat (List.length points)
     <= Z.of_nat (accepted poly bnds g fuel))%Z.
Proof.
  induction fuel as [ | fuel IH]; intros points g;
    cbn [polygon_loop fst accepted];
    destruct (Z.of_nat (List.length points) <? points_count)%Z eqn:Hlt.
  - apply Z.ltb_lt in Hlt. split; [intros [st' Hst]; discriminate | lia].
  - apply Z.ltb_ge in Hlt. split; [lia | now eexists].
  - apply Z.ltb_lt in Hlt. rewrite polygon_body_spec. cbv zeta.
    destruct (contains poly (drawn bnds g 0)); rewrite IH;
      [rewrite length_app; cbn [List.length] | ]; lia.
  - apply Z.ltb_ge in Hlt. split; [lia | now eexists].
Qed.

(** A run of the polygon loop that returns has run its body some number of
    times, at most the iterations granted, stopping at the first state whose
    list is as long as requested. *)
Lemma polygon_loop_iterate (poly : polygon) (bnds : R * R * R * R)
    (points_count : Z) :
  forall fuel st st',
    polygon_loop fuel poly bnds points_count st = Ok st' ->
    exists n,
      (n <= fuel)%nat /\
      st' = Nat.iter n (polygon_body poly bnds) st /\
      (points_count <= Z.of_nat (List.length (fst st')))%Z /\
      forall m, (m < n)%nat ->
        (Z.of_nat (List.length
                     (fst (Nat.iter m (polygon_body poly bnds) st)))
         < points_count)%Z.
Proof.
  induction fuel as [ | fuel IH]; intros st st' Hrun; cbn [polygon_loop] in Hrun;
    destruct (Z.of_nat (List.length (fst st)) <? points_count)%Z eqn:Hlt;
    try discriminate.
  - injection Hrun as <-. apply Z.ltb_ge in Hlt.
    exists 0%nat. repeat split; [lia | exact Hlt | intros m Hm; lia].
  - apply IH in Hrun as (n & Hn & -> & Hstop & Hgo).
    apply Z.ltb_lt in Hlt.
    exists (S n). rewrite Nat.iter_succ_r. repeat split; [lia | exact Hstop | ].
    intros [ | m] Hm; [exact Hlt | ].
    rewrite Nat.iter_succ_r. apply Hgo. lia.
  - injection Hrun as <-. apply Z.ltb_ge in Hlt.
    exists 0%nat. repeat split; [lia | exact Hlt | intros m Hm; lia].
Qed.

Lemma accepted_all (poly : polygon) (bnds : R * R * R * R) :
  forall k g,
    (forall n, contains poly (drawn bnds g n) = true) ->
    accepted poly bnds g k = k.
Proof.
  induction k as [ | k IH]; intros g Hall; [reflexivity | ].
  cbn [accepted]. rewrite (Hall 0%nat), IH; [reflexivity | ].
  intros n. rewrite drawn_tail. apply Hall.
Qed.

End GenerateFacts.

(** ** Runs on examples *)

Lemma cos_radians_0 : cos (radians 0) = 1.
Proof. unfold radians. rewrite Rmult_0_l. apply cos_0. Qed.

Lemma cos_radians_0_neq : cos (radians 0) <> 0.
Proof. rewrite cos_radians_0. lra. Qed.

Lemma fair_zeros : fair zeros.
Proof. intros n. unfold zeros. lra. Qed.

Lemma fair_halves : fair halves.
Proof. intros n. unfold halves. lra. Qed.

Lemma fair_half_half_zero : fair half_half_zero.
Proof.
  intros n. unfold half_half_zero.
  destruct n as [ | [ | [ | n]]]; lra.
Qed.

(** On [halves] every draw in the box with corners (0, 0) and (2, 2) is its
    centre. *)
Lemma halves_inside_square (n : nat) :
  contains ((0, 0, 2, 2) : box) (drawn (0, 0, 2, 2) halves n) = true.
Proof.
  cbn [contains box_shapely box_contains drawn x y]. unfold halves.
  decide_reals. reflexivity.
Qed.

(** A box without interior contains no point at all. *)
Lemma flat_box_contains_nothing (p : Point) :
  contains ((0, 0, 0, 0) : box) p = false.
Proof.
  cbn [contains box_shapely box_contains]. decide_reals; reflexivity.
Qed.

(** Radius mode around (0, 0) with radius 111 on [half_half_zero]: the
    centre, then the point one degree to the south. *)
Lemma meridian_points (fuel : nat) :
  exists g',
    sample_points fuel (Some (0, 0)) (Some 111) 2 (@None box) half_half_zero
    = Ok ([(0, 0); (-1, 0)], g').
Proof.
  cbn [sample_points]. change (Z.to_nat 2) with 2%nat.
  cbn [radius_loop uniform random app].
  rewrite cos_radians_0, Rabs_R1.
  rewrite !truediv_ok by lra. cbn [bind].
  eexists. unfold half_half_zero. apply f_equal.
  apply f_equal2; [ | reflexivity].
  repeat f_equal; field.
Qed.

Lemma haversine_a_meridian (lat1 lat2 lon : R) :
  0 < lat1 - lat2 < 360 -> 0 < haversine_a lat1 lon lat2 lon.
Proof.
  intros Hd. unfold haversine_a, radians.
  replace ((lon - lon) * (PI / 180) / 2) with 0 by field.
  rewrite sin_0.
  replace ((lat2 - lat1) * (PI / 180) / 2)
    with (- ((lat1 - lat2) * (PI / 180) / 2)) by field.
  rewrite sin_neg.
  assert (Hsin : 0 < sin ((lat1 - lat2) * (PI / 180) / 2)).
  { pose proof PI_RGT_0. apply sin_gt_0; nra. }
  nra.
Qed.

(** ** The properties of the specification: sampling *)

(** C1. In polygon mode every point appended to the output sequence lies
    inside the polygon: after any number of iterations of the sampling loop,
    in the list the loop ends with, and in the document returned, the
    shapely test [polygon.contains(Point(longitude, latitude))] holds of
    every (latitude, longitude) pair. *)
Theorem polygon_mode_points_inside {polygon : Type} `{Shapely polygon}
    (poly : polygon) (points_count : Z) (g : rng) :
  (forall n,
     Forall (inside poly)
       (fst (Nat.iter n (polygon_body poly (bounds poly)) ([], g)))) /\
  (forall fuel region_center radius points g',
     sample_points fuel region_center radius points_count (Some poly) g
     = Ok (points, g') ->
     Forall (inside poly) points) /\
  (forall fuel region_center radius altitude speed doc,
     generate_random_kml fuel region_center radius points_count altitude
       speed (Some poly) g = Ok doc ->
     Forall (inside poly) (points_of doc)).
Proof.
  split; [apply polygon_iter_inside | ].
  assert (Hsample : forall fuel region_center radius points g',
    sample_points fuel region_center radius points_count (Some poly) g
    = Ok (points, g') -> Forall (inside poly) points).
  { intros fuel rc rad points g' Hrun. cbn [sample_points] in Hrun.
    apply polygon_loop_inside in Hrun; [exact Hrun | constructor]. }
  split; [exact Hsample | ].
  intros fuel rc rad altitude speed doc Hrun.
  apply generate_inv in Hrun as (points & g' & Hs & _ & ->).
  eapply Hsample, Hs.
Qed.

Lemma polygon_mode_points_inside_witness :
  exists doc,
    generate_random_kml 2 None None 2 1000 100 (Some ((0, 0, 2, 2) : box))
      halves = Ok doc /\
    Z.of_nat (List.length doc) = 2%Z /\
    Forall (inside ((0, 0, 2, 2) : box)) (points_of doc).
Proof.
  destruct (generate_polygon_total 2 None None 2 1000 100
              ((0, 0, 2, 2) : box) halves halves_inside_square)
    as (doc & Hrun & Hlen); [lia | lra | ].
  exists doc. split; [exact Hrun | split; [exact Hlen | ]].
  exact (proj2 (proj2 (polygon_mode_points_inside _ 2%Z halves))
           _ _ _ _ _ _ Hrun).
Defined.

(** C2, as the specification states it, fails: with the radius -1 the one
    point sampled around (0, 0) is not within -1 km of the centre, no
    absolute value being negative. *)
Lemma negative_radius_outside_square :
  exists points g',
    fair zeros /\
    sample_points 0 (Some (0, 0)) (Some (-1)) 1 (@None box) zeros
    = Ok (points, g') /\
    ~ Forall (in_square 0 0 (-1)) points.
Proof.
  destruct (radius_loop_total 0 0 (-1) cos_radians_0_neq 1 [] zeros)
    as (points & g' & Hrun).
  exists points, g'. split; [exact fair_zeros | split; [exact Hrun | ]].
  apply radius_loop_length in Hrun.
  destruct points as [ | p rest]; [discriminate | ].
  intros Hall. inversion Hall as [ | ? ? [Hlat _] _]; subst.
  pose proof (Rabs_pos ((fst p - 0) * 111)). lra.
Qed.

(** C2, amended. In radius mode, on draws of [random.random()] in [0, 1),
    every sampled point is within [|radius|] of the centre under the degree
    approximation: its latitude offset times 111 and its longitude offset
    times [111 * |cos (radians lat_center)|] are at most [|radius|] in
    absolute value, which is [radius] when [radius] is not negative. *)
Theorem radius_mode_points_in_square {polygon : Type} `{Shapely polygon}
    (lat_center lon_center radius : R) (points_count : Z) (g : rng) :
  fair g ->
  (forall fuel points g',
     sample_points fuel (Some (lat_center, lon_center)) (Some radius)
       points_count (@None polygon) g = Ok (points, g') ->
     Forall (in_square lat_center lon_center (Rabs radius)) points) /\
  (forall fuel altitude speed doc,
     generate_random_kml fuel (Some (lat_center, lon_center)) (Some radius)
       points_count altitude speed (@None polygon) g = Ok doc ->
     Forall (in_square lat_center lon_center (Rabs radius)) (points_of doc)).
Proof.
  intros Hfair.
  assert (Hsample : forall fuel points g',
    sample_points fuel (Some (lat_center, lon_center)) (Some radius)
      points_count (@None polygon) g = Ok (points, g') ->
    Forall (in_square lat_center lon_center (Rabs radius)) points).
  { intros fuel points g' Hrun. cbn [sample_points] in Hrun.
    eapply radius_loop_inv in Hrun; [apply Hrun | | exact Hfair | constructor].
    intros u v Hu Hv Hcos. now apply in_square_point. }
  split; [exact Hsample | ].
  intros fuel altitude speed doc Hrun.
  apply generate_inv in Hrun as (points & g' & Hs & _ & ->).
  eapply Hsample, Hs.
Qed.

Lemma radius_mode_points_in_square_witness :
  exists doc,
    generate_random_kml 0 (Some (0, 0)) (Some 10) 2 1000 100 (@None box)
      halves = Ok doc /\
    Z.of_nat (List.length doc) = 2%Z /\
    Forall (in_square 0 0 10) (points_of doc).
Proof.
  destruct (generate_radius_total (polygon := box) 0 0 0 10 2 1000 100 halves)
    as [doc Hrun]; [left; exact cos_radians_0_neq | left; lra | ].
  exists doc. split; [exact Hrun | ].
  split; [exact (generate_radius_length _ _ _ _ _ _ _ _ _ Hrun) | ].
  pose proof (proj2 (radius_mode_points_in_square 0 0 10 2%Z halves
                       fair_halves) _ _ _ _ Hrun) as Hall.
  rewrite Rabs_right in Hall by lra. exact Hall.
Defined.

(** C8. Polygon-mode sampling draws, at each iteration, one point of the
    bounding box of the polygon and appends it only if the polygon contains
    it; the loop returns exactly when the polygon has contained as many of
    the points drawn as were requested, what it returns being the state
    reached by running its body up to the first list of the requested
    length; nothing else bounds the iterations, so on a polygon that
    contains none of the points drawn the sampler never returns, whatever
    the iterations granted. *)
Theorem polygon_sampler_starves {polygon : Type} `{Shapely polygon}
    (poly : polygon) (points_count : Z) (g : rng) :
  (forall points g0,
     let p := drawn (bounds poly) g0 0 in
     polygon_body poly (bounds poly) (points, g0) =
     (if contains poly p then points ++ [(y p, x p)] else points,
      fun n => g0 (S (S n)))) /\
  (forall n minx miny maxx maxy,
     fair g -> bounds poly = (minx, miny, maxx, maxy) ->
     minx <= maxx -> miny <= maxy ->
     minx <= x (drawn (bounds poly) g n) <= maxx /\
     miny <= y (drawn (bounds poly) g n) <= maxy) /\
  (forall fuel,
     (exists st',
        polygon_loop fuel poly (bounds poly) points_count ([], g) = Ok st')
     <-> (points_count
          <= Z.of_nat (accepted poly (bounds poly) g fuel))%Z) /\
  (forall fuel st',
     polygon_loop fuel poly (bounds poly) points_count ([], g) = Ok st' ->
     Z.of_nat (List.length (fst st')) = Z.max 0 points_count /\
     exists n,
       (n <= fuel)%nat /\
       st' = Nat.iter n (polygon_body poly (bounds poly)) ([], g) /\
       forall m, (m < n)%nat ->
         (Z.of_nat
            (List.length
               (fst (Nat.iter m (polygon_body poly (bounds poly)) ([], g))))
          < points_count)%Z) /\
  ((0 < points_count)%Z ->
   (forall n, contains poly (drawn (bounds poly) g n) = false) ->
   forall fuel region_center radius altitude speed,
     generate_random_kml fuel region_center radius points_count altitude
       speed (Some poly) g = OutOfFuel).
Proof.
  split; [intros points g0; apply polygon_body_spec | ].
  split.
  { intros n minx miny maxx maxy Hfair -> Hx Hy. cbn [drawn x y].
    pose proof (Hfair (2 * n)%nat). pose proof (Hfair (2 * n + 1)%nat).
    split; nra. }
  split.
  { intros fuel.
    pose proof (polygon_loop_returns_iff poly (bounds poly) points_count
                  fuel [] g) as Hiff.
    cbn [List.length] in Hiff. now rewrite Z.sub_0_r in Hiff. }
  split.
  { intros fuel st' Hrun. split.
    - apply polygon_loop_length in Hrun; [exact Hrun | ].
      cbn [fst List.length]. lia.
    - apply polygon_loop_iterate in Hrun as (n & Hn & Hst & _ & Hgo).
      exists n. repeat split; assumption. }
  intros Hpos Hnever fuel rc rad altitude speed.
  unfold generate_random_kml. cbn [sample_points].
  now rewrite polygon_loop_starves.
Qed.

Lemma polygon_sampler_starves_witness :
  generate_random_kml 1000 None None 1 1000 100
    (Some ((0, 0, 0, 0) : box)) halves = OutOfFuel /\
  exists st',
    polygon_loop 3 ((0, 0, 2, 2) : box) (bounds ((0, 0, 2, 2) : box)) 2
      ([], halves) = Ok st'.
Proof.
  split.
  - apply (proj2 (proj2 (proj2 (proj2
             (polygon_sampler_starves ((0, 0, 0, 0) : box) 1%Z halves))))).
    + reflexivity.
    + intros n. apply flat_box_contains_nothing.
  - apply (proj2 (proj1 (proj2 (proj2
             (polygon_sampler_starves ((0, 0, 2, 2) : box) 2%Z halves)))
                    3%nat)).
    cbn [bounds box_shapely].
    rewrite (accepted_all _ _ 3 halves halves_inside_square). lia.
Defined.

(** ** The properties of the specification: durations *)

(** Two consecutive elements of a document and the points they were made
    from. *)
Lemma consecutive_flytos (points : list (R * R)) (altitude speed : R)
    (doc : kml) (i : nat) (prev cur : FlyTo) :
  build_flytos points altitude speed = Ok doc ->
  nth_error doc i = Some prev -> nth_error doc (S i) = Some cur ->
  speed <> 0 /\
  duration cur =
  haversine (latitude prev) (longitude prev) (latitude cur) (longitude cur)
  / speed * 3600.
Proof.
  intros Hdoc Hprev Hcur.
  apply build_flytos_inv in Hdoc as [_ Hnth].
  apply Hnth in Hprev as (plat & plon & pd & Hp & _ & ->).
  apply Hnth in Hcur as (lat & lon & d & Hc & Hd & ->).
  apply segment_duration_later in Hd
    as (plat' & plon' & lat' & lon' & Hp' & Hc' & Hs & ->).
  rewrite Hp in Hp'. rewrite Hc in Hc'.
  injection Hp' as <- <-. injection Hc' as <- <-.
  now split.
Qed.

(** C3. For every index i >= 1 of a generated sequence, the duration of
    segment i is the haversine distance (Earth radius 6371 km) between
    point i-1 and point i, divided by the speed and multiplied by 3600. *)
Theorem later_durations_are_haversine_over_speed {polygon : Type}
    `{Shapely polygon} (fuel : nat) (region_center : option (R * R))
    (radius : option R) (points_count : Z) (altitude speed : R)
    (poly : option polygon) (g : rng) (doc : kml) (i : nat)
    (prev cur : FlyTo) :
  generate_random_kml fuel region_center radius points_count altitude
    speed poly g = Ok doc ->
  nth_error doc i = Some prev -> nth_error doc (S i) = Some cur ->
  duration cur =
  haversine (latitude prev) (longitude prev)
            (latitude cur) (longitude cur) / speed * 3600.
Proof.
  intros Hrun Hp Hc.
  apply generate_inv in Hrun as (points & g' & _ & Hdoc & _).
  now destruct (consecutive_flytos _ _ _ _ _ _ _ Hdoc Hp Hc).
Qed.

Lemma later_durations_are_haversine_over_speed_witness :
  exists doc prev cur,
    generate_random_kml 0 (Some (0, 0)) (Some 111) 2 1000 100 (@None box)
      half_half_zero = Ok doc /\
    nth_error doc 0 = Some prev /\ nth_error doc 1 = Some cur /\
    points_of doc = [(0, 0); (-1, 0)] /\
    duration cur =
    haversine (latitude prev) (longitude prev)
              (latitude cur) (longitude cur) / 100 * 3600.
Proof.
  destruct (generate_radius_total (polygon := box) 0 0 0 111 2 1000 100
              half_half_zero) as [doc Hrun];
    [left; exact cos_radians_0_neq | left; lra | ].
  pose proof (generate_inv _ _ _ _ _ _ _ _ _ Hrun)
    as (points & g' & Hs & _ & Hpts).
  destruct (meridian_points 0) as [g'' Hs']. rewrite Hs' in Hs.
  injection Hs as <- _.
  destruct doc as [ | prev [ | cur rest]]; try discriminate.
  exists (prev :: cur :: rest), prev, cur.
  split; [exact Hrun | ].
  split; [reflexivity | split; [reflexivity | split; [exact Hpts | ]]].
  exact (later_durations_are_haversine_over_speed _ _ _ _ _ _ _ _ _ 0%nat
           prev cur Hrun eq_refl eq_refl).
Defined.

(** C4. The first segment of every non-empty generated sequence lasts the
    constant 5 seconds, whatever the mode, the points, the speed and the
    other inputs: iteration 0 computes 5, and the first element of every
    document returned carries it. *)
Theorem first_duration_is_five {polygon : Type} `{Shapely polygon} :
  (forall points speed, segment_duration points speed 0 = Ok 5) /\
  (forall fuel region_center radius points_count altitude speed
          (poly : option polygon) g doc first rest,
     generate_random_kml fuel region_center radius points_count altitude
       speed poly g = Ok doc ->
     doc = first :: rest ->
     duration first = 5).
Proof.
  split; [intros; apply segment_duration_first | ].
  intros fuel rc rad points_count altitude speed poly g doc first rest Hrun ->.
  apply generate_inv in Hrun as (points & g' & _ & Hdoc & _).
  apply build_flytos_inv in Hdoc as [_ Hnth].
  destruct (Hnth 0%nat first eq_refl) as (lat & lon & d & _ & Hd & ->).
  rewrite segment_duration_first in Hd. now injection Hd as <-.
Qed.

Lemma first_duration_is_five_witness :
  exists doc first rest,
    generate_random_kml 2 None None 2 1000 100 (Some ((0, 0, 2, 2) : box))
      halves = Ok doc /\
    doc = first :: rest /\ duration first = 5.
Proof.
  destruct (generate_polygon_total 2 None None 2 1000 100
              ((0, 0, 2, 2) : box) halves halves_inside_square)
    as (doc & Hrun & Hlen); [lia | lra | ].
  destruct doc as [ | first rest]; [discriminate | ].
  exists (first :: rest), first, rest.
  split; [exact Hrun | split; [reflexivity | ]].
  exact (proj2 first_duration_is_five _ _ _ _ _ _ _ _ _ _ _ Hrun eq_refl).
Defined.

(** The run of the examples below at any speed but zero: two elements, the
    second one lasting the distance from (0, 0) to (-1, 0) over the speed. *)
Lemma meridian_run (speed : R) :
  speed <> 0 ->
  generate_random_kml 0 (Some (0, 0)) (Some 111) 2 1000 speed (@None box)
    half_half_zero
  = Ok [mkFlyTo 5 0 0 1000;
        mkFlyTo (haversine 0 0 (-1) 0 / speed * 3600) 0 (-1) 1000].
Proof.
  intros Hs. unfold generate_random_kml.
  destruct (meridian_points 0) as [g' ->]. cbn [bind].
  unfold build_flytos.
  cbn [List.length seq flyto_loop getitem nth_error bind segment_duration
       Nat.eqb Nat.sub app].
  now rewrite truediv_ok by assumption.
Qed.

(** C6, as the specification states it, fails: at the speed -100 the second
    segment of a generated sequence has a negative duration. *)
Lemma negative_speed_negative_duration :
  exists doc f,
    generate_random_kml 0 (Some (0, 0)) (Some 111) 2 1000 (-100) (@None box)
      half_half_zero = Ok doc /\
    nth_error doc 1 = Some f /\
    duration f < 0.
Proof.
  eexists. eexists. split; [apply meridian_run; lra | ].
  split; [reflexivity | ]. cbn [duration].
  assert (Hd : 0 < haversine 0 0 (-1) 0).
  { apply haversine_pos, haversine_a_meridian. lra. }
  replace (haversine 0 0 (-1) 0 / -100 * 3600)
    with (- (36 * haversine 0 0 (-1) 0)) by field.
  lra.
Qed.

(** C6, amended. At a positive speed every segment after the first has a
    non-negative duration; and durations scale inversely with the speed:
    over the same points, the duration of a segment after the first at speed
    [s] is [s' / s] times its duration at speed [s']. *)
Theorem later_durations_sign_and_scaling {polygon : Type} `{Shapely polygon} :
  (forall fuel region_center radius points_count altitude speed
          (poly : option polygon) g doc i f,
     0 < speed ->
     generate_random_kml fuel region_center radius points_count altitude
       speed poly g = Ok doc ->
     nth_error doc (S i) = Some f ->
     0 <= duration f) /\
  (forall points altitude altitude' s s' doc doc' i f f',
     build_flytos points altitude s = Ok doc ->
     build_flytos points altitude' s' = Ok doc' ->
     nth_error doc (S i) = Some f -> nth_error doc' (S i) = Some f' ->
     duration f = s' / s * duration f').
Proof.
  split.
  - intros fuel rc rad points_count altitude speed poly g doc i f Hs Hrun Hf.
    apply generate_inv in Hrun as (points & g' & _ & Hdoc & _).
    destruct (nth_error doc i) as [prev | ] eqn:Hprev.
    + destruct (consecutive_flytos _ _ _ _ _ _ _ Hdoc Hprev Hf) as [_ ->].
      pose proof (haversine_nonneg (latitude prev) (longitude prev)
                    (latitude f) (longitude f)) as Hd.
      assert (0 < / speed) by now apply Rinv_0_lt_compat.
      unfold Rdiv. nra.
    + apply nth_error_None in Hprev.
      assert (S i < List.length doc)%nat by (apply nth_error_Some; congruence).
      lia.
  - intros points altitude altitude' s s' doc doc' i f f' Hdoc Hdoc' Hf Hf'.
    apply build_flytos_inv in Hdoc as [_ Hnth].
    apply build_flytos_inv in Hdoc' as [_ Hnth'].
    apply Hnth in Hf as (lat & lon & d & Hp & Hd & ->).
    apply Hnth' in Hf' as (lat' & lon' & d' & Hp' & Hd' & ->).
    apply segment_duration_later in Hd
      as (a & b & c & e & Ha & Hc & Hs & ->).
    apply segment_duration_later in Hd'
      as (a' & b' & c' & e' & Ha' & Hc' & Hs' & ->).
    rewrite Ha in Ha'. rewrite Hc in Hc'.
    injection Ha' as <- <-. injection Hc' as <- <-.
    cbn [duration]. field. now split.
Qed.

Lemma later_durations_sign_and_scaling_witness :
  0 <= haversine 0 0 (-1) 0 / 100 * 3600 /\
  haversine 0 0 (-1) 0 / 200 * 3600
  = 100 / 200 * (haversine 0 0 (-1) 0 / 100 * 3600).
Proof.
  pose proof (@later_durations_sign_and_scaling box _) as [Hsign Hscale].
  split.
  - refine (Hsign 0%nat (Some (0, 0)) (Some 111) 2%Z 1000 100 None
              half_half_zero _ 0%nat (mkFlyTo _ 0 (-1) 1000) _
              (meridian_run 100 _) eq_refl); lra.
  - destruct (generate_inv _ _ _ _ _ _ _ _ _ (meridian_run 200 ltac:(lra)))
      as (points & g' & _ & Hdoc & _).
    destruct (generate_inv _ _ _ _ _ _ _ _ _ (meridian_run 100 ltac:(lra)))
      as (points' & g'' & _ & Hdoc' & Hpts').
    apply build_flytos_points in Hdoc as Hpts.
    rewrite <- Hpts in Hdoc. rewrite <- Hpts' in Hdoc'.
    exact (Hscale _ _ _ _ _ _ _ 0%nat (mkFlyTo _ 0 (-1) 1000)
             (mkFlyTo _ 0 (-1) 1000) Hdoc Hdoc' eq_refl eq_refl).
Defined.

(** C9, as stated, fails: at the speed 0 a radius-mode call asked for two
    points raises [ZeroDivisionError] instead of producing two triples. *)
Lemma zero_speed_raises :
  generate_random_kml 0 (Some (0, 0)) (Some 111) 2 1000 0 (@None box)
    half_half_zero = Raise ZeroDivisionError.
Proof.
  unfold generate_random_kml.
  destruct (meridian_points 0) as [g' ->]. cbn [bind].
  unfold build_flytos.
  cbn [List.length seq flyto_loop getitem nth_error bind segment_duration
       Nat.eqb Nat.sub app].
  now rewrite truediv_zero.
Qed.

(** C9, amended. In radius mode a call that returns has produced exactly
    [points_count] triples when [points_count >= 0] (not every call returns:
    at the speed 0 the division [distance / speed] raises as soon as two
    points are asked for); and when [points_count <= 0] the call returns the
    empty tour, raising nothing. *)
Theorem radius_mode_count {polygon : Type} `{Shapely polygon}
    (fuel : nat) (lat_center lon_center radius : R) (points_count : Z)
    (altitude speed : R) (g : rng) :
  let call :=
    generate_random_kml fuel (Some (lat_center, lon_center)) (Some radius)
      points_count altitude speed (@None polygon) g in
  ((points_count <= 0)%Z -> call = Ok []) /\
  (forall doc,
     call = Ok doc ->
     Z.of_nat (List.length doc) = Z.max 0 points_count /\
     ((0 <= points_count)%Z -> Z.of_nat (List.length doc) = points_count)).
Proof.
  intros call. split.
  - intros Hle. unfold call, generate_random_kml. cbn [sample_points].
    now replace (Z.to_nat points_count) with 0%nat by lia.
  - intros doc Hrun. apply generate_radius_length in Hrun. split; lia.
Qed.

Lemma radius_mode_count_witness :
  generate_random_kml 0 (Some (0, 0)) (Some 111) 0 1000 0 (@None box) halves
  = Ok [] /\
  exists doc,
    generate_random_kml 0 (Some (0, 0)) (Some 111) 2 1000 100 (@None box)
      halves = Ok doc /\
    Z.of_nat (List.length doc) = 2%Z.
Proof.
  split.
  - apply (proj1 (radius_mode_count (polygon := box) 0 0 0 111 0 1000 0
                    halves)). lia.
  - destruct (generate_radius_total (polygon := box) 0 0 0 111 2 1000 100
                halves) as [doc Hrun];
      [left; exact cos_radians_0_neq | left; lra | ].
    exists doc. split; [exact Hrun | ].
    apply (proj2 (radius_mode_count (polygon := box) 0 0 0 111 2 1000 100
                    halves) doc Hrun). lia.
Defined.

(** ** The properties of the specification: reading the polygon *)

Section ScriptFacts.

Context {polygon : Type} `{Shapely polygon} `{Builtins}.

Lemma mapM_ok {A B : Type} (f : A -> result B) :
  forall l bs, Forall2 (fun a b => f a = Ok b) l bs -> mapM f l = Ok bs.
Proof.
  induction 1 as [ | a b l bs Hab _ IH]; [reflexivity | ].
  cbn [mapM]. rewrite Hab. cbn [bind]. rewrite IH. reflexivity.
Qed.

Lemma float_ok (s : string) (r : R) : float_of_str s = Some r -> float s = Ok r.
Proof. unfold float. now intros ->. Qed.

Lemma int_ok (s : string) (z : Z) : int_of_str s = Some z -> int s = Ok z.
Proof. unfold int. now intros ->. Qed.

(** The tuples of the list comprehension: the floats of the first two
    components of each item. *)
Lemma coordinates_of_ok (coordinates_text : string)
    (coordinates : list (list R)) :
  Forall2
    (fun item tuple =>
       Forall2 (fun component r => float_of_str component = Some r)
         (firstn 2 (split_on "," item)) tuple)
    (split_ws coordinates_text) coordinates ->
  coordinates_of coordinates_text = Ok coordinates.
Proof.
  intros Hall. unfold coordinates_of. apply mapM_ok.
  induction Hall as [ | item tuple items tuples Hitem _ IH]; constructor;
    [ | exact IH].
  apply mapM_ok.
  induction Hitem as [ | c r cs rs Hc _ IHc]; constructor; [ | exact IHc].
  now apply float_ok.
Qed.

(** The loop returns from the first placemark in which a polygon is found;
    the placemarks after it are not looked at. *)
Lemma placemark_loop_first (before after : list Element)
    (placemark polygon_element : Element) :
  Forall (fun p => find Polygon_tag p = None) before ->
  find Polygon_tag placemark = Some polygon_element ->
  placemark_loop (before ++ placemark :: after)
  = (p <- polygon_of_element polygon_element ;; Ok (Some p)).
Proof.
  intros Hbefore Hfound.
  induction Hbefore as [ | p before Hp _ IH]; cbn [app placemark_loop].
  - now rewrite Hfound.
  - now rewrite Hp.
Qed.

Lemma placemark_loop_none (placemarks : list Element) :
  Forall (fun p => find Polygon_tag p = None) placemarks ->
  placemark_loop placemarks = Ok None.
Proof.
  induction 1 as [ | p rest Hp _ IH]; cbn [placemark_loop];
    [reflexivity | now rewrite Hp].
Qed.

(** X15. A missing file is reported and nothing is written: in the polygon
    form a path that names no file gives the line
    [Error: File '<path>' not found.] and a normal end of the run. *)
Lemma missing_polygon_file_reported (fuel : nat) (fs : filesystem) (g : rng)
    (script path count_s altitude_s speed_s : string) (c : Z) (a s : R) :
  int_of_str count_s = Some c ->
  float_of_str altitude_s = Some a ->
  float_of_str speed_s = Some s ->
  fs path = Missing ->
  run fuel fs g
    [script; "polygon"%string; path; count_s; altitude_s; speed_s]
  = (mkWorld [("Error: File '" ++ path ++ "' not found.")%string] [], Ok tt).
Proof.
  intros Hc Ha Hs Hfile. unfold run, main.
  cbn [List.length Nat.ltb Nat.leb nth].
  change (lower "polygon") with "polygon"%string.
  cbn [String.eqb Ascii.eqb Bool.eqb andb Nat.eqb].
  unfold polygon_branch, try_except_ValueError, io_bind, lift,
    parse_polygon_from_kml.
  rewrite (int_ok _ _ Hc), (float_ok _ _ Ha), (float_ok _ _ Hs), Hfile.
  reflexivity.
Qed.

(** X16. A document without a polygon in a placemark is reported as well:
    the run prints the line on no polygon found, writes nothing and ends
    normally, whatever polygons the document has outside its placemarks. *)
Lemma polygon_not_found_reported (fuel : nat) (fs : filesystem) (g : rng)
    (script path count_s altitude_s speed_s : string) (c : Z) (a s : R)
    (root : Element) :
  int_of_str count_s = Some c ->
  float_of_str altitude_s = Some a ->
  float_of_str speed_s = Some s ->
  fs path = Document root ->
  Forall (fun p => find Polygon_tag p = None) (findall Placemark_tag root) ->
  run fuel fs g
    [script; "polygon"%string; path; count_s; altitude_s; speed_s]
  = (mkWorld ["Error: No polygon found in the KML file."%string] [], Ok tt).
Proof.
  intros Hc Ha Hs Hfile Hnone. unfold run, main.
  cbn [List.length Nat.ltb Nat.leb nth].
  change (lower "polygon") with "polygon"%string.
  cbn [String.eqb Ascii.eqb Bool.eqb andb Nat.eqb].
  unfold polygon_branch, try_except_ValueError, io_bind, lift,
    parse_polygon_from_kml.
  rewrite (int_ok _ _ Hc), (float_ok _ _ Ha), (float_ok _ _ Hs), Hfile.
  rewrite (placemark_loop_none _ Hnone).
  reflexivity.
Qed.

(** When reading the polygon raises, the handler of [main] turns a
    [ValueError] into a message and lets every other exception through. *)
Lemma polygon_parse_error_outcome (fuel : nat) (fs : filesystem) (g : rng)
    (script path count_s altitude_s speed_s : string) (c : Z) (a s : R)
    (root : Element) (e : exn) :
  int_of_str count_s = Some c ->
  float_of_str altitude_s = Some a ->
  float_of_str speed_s = Some s ->
  fs path = Document root ->
  placemark_loop (findall Placemark_tag root) = Raise e ->
  run fuel fs g
    [script; "polygon"%string; path; count_s; altitude_s; speed_s]
  = match e with
    | ValueError =>
        (mkWorld
           ["Error: Invalid input. Please provide a valid points count, altitude, and speed."%string]
           [], Ok tt)
    | _ => (mkWorld [] [], Raise e)
    end.
Proof.
  intros Hc Ha Hs Hfile Hraise. unfold run, main.
  cbn [List.length Nat.ltb Nat.leb nth].
  change (lower "polygon") with "polygon"%string.
  cbn [String.eqb Ascii.eqb Bool.eqb andb Nat.eqb].
  unfold polygon_branch, try_except_ValueError, io_bind, lift,
    parse_polygon_from_kml.
  rewrite (int_ok _ _ Hc), (float_ok _ _ Ha), (float_ok _ _ Hs), Hfile.
  rewrite Hraise. now destruct e.
Qed.

End ScriptFacts.

(** C10. On a well-formed document [parse_polygon_from_kml] returns the
    polygon built from the first placemark that holds a polygon: the
    constructor is applied to the tuples made of the first two
    comma-separated components of each item of its coordinates, nothing is
    printed, and the placemarks after that one play no part. *)
Theorem parse_polygon_first_placemark {polygon : Type} `{Shapely polygon}
    `{Builtins} (fs : filesystem) (path : string) (root : Element)
    (before after : list Element)
    (placemark polygon_element coordinates_element : Element)
    (coordinates_text : string) (coordinates : list (list R)) (w : world) :
  fs path = Document root ->
  findall Placemark_tag root = before ++ placemark :: after ->
  Forall (fun p => find Polygon_tag p = None) before ->
  find Polygon_tag placemark = Some polygon_element ->
  find coordinates_tag polygon_element = Some coordinates_element ->
  text coordinates_element = Some coordinates_text ->
  Forall2
    (fun item tuple =>
       Forall2 (fun component r => float_of_str component = Some r)
         (firstn 2 (split_on "," item)) tuple)
    (split_ws (strip coordinates_text)) coordinates ->
  parse_polygon_from_kml fs path w
  = (w, p <- Polygon coordinates ;; Ok (Some p)).
Proof.
  intros Hfile Hall Hbefore Hpoly Hcoord Htext Hfloats.
  unfold parse_polygon_from_kml. rewrite Hfile, Hall.
  rewrite (placemark_loop_first _ _ _ _ Hbefore Hpoly).
  unfold polygon_of_element. rewrite Hcoord, Htext.
  rewrite (coordinates_of_ok _ _ Hfloats).
  unfold io_bind, lift. cbn [bind].
  now destruct (Polygon coordinates).
Qed.

Lemma parse_polygon_first_placemark_witness :
  parse_polygon_from_kml disk "square.kml" (mkWorld [] [])
  = (mkWorld [] [], Ok (Some ((0, 0, 2, 2) : box))).
Proof.
  refine (eq_trans
    (parse_polygon_first_placemark disk "square.kml" two_polygons
           [Elem Placemark_tag None [Elem (kml_ns ++ "Point") None []]]
           [placemark_with other_ring]
           (placemark_with square_ring)
           (Elem Polygon_tag None
              [Elem (kml_ns ++ "outerBoundaryIs") None
                 [Elem (kml_ns ++ "LinearRing") None
                    [Elem coordinates_tag (Some square_ring) []]]])
           (Elem coordinates_tag (Some square_ring) [])
           square_ring
           [[0; 0]; [2; 0]; [2; 2]; [0; 2]; [0; 0]]
           (mkWorld [] []) _ _ _ _ _ _ _) eq_refl).
  - reflexivity.
  - reflexivity.
  - repeat constructor.
  - reflexivity.
  - reflexivity.
  - reflexivity.
  - change (split_ws (strip square_ring))
      with ["0,0,0"; "2,0,0"; "2,2,0"; "0,2,0"; "0,0,0"]%string.
    repeat constructor.
Defined.

(** C7, at the input on which the code departs from it: a polygon file that
    exists but is not well-formed XML makes [ET.parse] raise [ParseError],
    which the handler of [main], written for [ValueError], lets through;
    the run ends on that exception with nothing printed. *)
Theorem malformed_polygon_file_raises {polygon : Type} `{Shapely polygon}
    `{Builtins} (fuel : nat) (fs : filesystem) (g : rng)
    (script path count_s altitude_s speed_s : string) (c : Z) (a s : R) :
  int_of_str count_s = Some c ->
  float_of_str altitude_s = Some a ->
  float_of_str speed_s = Some s ->
  fs path = Malformed ->
  run fuel fs g
    [script; "polygon"%string; path; count_s; altitude_s; speed_s]
  = (mkWorld [] [], Raise ParseError).
Proof.
  intros Hc Ha Hs Hfile. unfold run, main.
  cbn [List.length Nat.ltb Nat.leb nth].
  change (lower "polygon") with "polygon"%string.
  cbn [String.eqb Ascii.eqb Bool.eqb andb Nat.eqb].
  unfold polygon_branch, try_except_ValueError, io_bind, lift,
    parse_polygon_from_kml.
  rewrite (int_ok _ _ Hc), (float_ok _ _ Ha), (float_ok _ _ Hs), Hfile.
  reflexivity.
Qed.

Lemma malformed_polygon_file_raises_witness :
  run (polygon := box) 10 disk halves
    ["randomized_flyover_generator.py"; "polygon"; "broken.kml"; "10";
     "1500"; "100"]%string
  = (mkWorld [] [], Raise ParseError).
Proof.
  apply (malformed_polygon_file_raises (polygon := box) 10 disk halves
           "randomized_flyover_generator.py" "broken.kml" "10" "1500" "100"
           10%Z 1500 100); reflexivity.
Defined.

(** * Properties beyond the specification *)

(** ** [haversine] *)

Lemma atan2_le_half_pi (y x : R) : 0 <= y -> 0 <= x -> atan2 y x <= PI / 2.
Proof.
  intros Hy Hx. unfold atan2. pose proof PI_RGT_0.
  destruct (Rlt_dec 0 x).
  - pose proof (atan_bound (y / x)). lra.
  - destruct (Rlt_dec x 0); [lra | ].
    destruct (Rlt_dec 0 y); [lra | ]. destruct (Rlt_dec y 0); lra.
Qed.

(** The angle of the point [(cos t, sin t)] of the first quadrant is [t]. *)
Lemma atan2_sin_cos (t : R) :
  0 <= t <= PI / 2 -> atan2 (sin t) (cos t) = t.
Proof.
  intros [Hlo Hhi]. pose proof PI_RGT_0 as Hpi.
  destruct (Req_dec_T t (PI / 2)) as [-> | Hne].
  - rewrite sin_PI2, cos_PI2. unfold atan2.
    destruct (Rlt_dec 0 0); [lra | ]. destruct (Rlt_dec 0 1); [reflexivity | lra].
  - assert (Hcos : 0 < cos t) by (apply cos_gt_0; lra).
    unfold atan2. destruct (Rlt_dec 0 (cos t)); [ | lra].
    change (sin t / cos t) with (tan t). apply atan_tan. lra.
Qed.

Lemma haversine_same (lat lon : R) : haversine lat lon lat lon = 0.
Proof.
  rewrite haversine_eq, haversine_a_same.
  replace (1 - 0) with 1 by ring.
  rewrite sqrt_0, sqrt_1, atan2_0_1. ring.
Qed.

(** X1. The distance [haversine] returns lies between 0 and half the
    circumference of the sphere, [6371 * PI] km. *)
Theorem haversine_range (lat1 lon1 lat2 lon2 : R) :
  0 <= haversine lat1 lon1 lat2 lon2 <= 6371 * PI.
Proof.
  split; [apply haversine_nonneg | ].
  rewrite haversine_eq.
  pose proof (atan2_le_half_pi _ _
                (sqrt_pos (haversine_a lat1 lon1 lat2 lon2))
                (sqrt_pos (1 - haversine_a lat1 lon1 lat2 lon2))).
  lra.
Qed.

(** X2. Along a meridian [haversine] is the length of the arc: for two
    points of the same longitude whose latitudes differ by at most 180
    degrees, the distance is 6371 times that difference in radians. *)
Theorem haversine_meridian_arc (lat1 lat2 lon : R) :
  Rabs (lat2 - lat1) <= 180 ->
  haversine lat1 lon lat2 lon = 6371 * radians (Rabs (lat2 - lat1)).
Proof.
  intros Hd. pose proof PI_RGT_0 as Hpi.
  set (t := radians (Rabs (lat2 - lat1)) / 2).
  assert (Ht : 0 <= t <= PI / 2).
  { unfold t, radians. pose proof (Rabs_pos (lat2 - lat1)). split; nra. }
  assert (Ha : haversine_a lat1 lon lat2 lon = sin t ^ 2).
  { unfold haversine_a, t, radians.
    replace ((lon - lon) * (PI / 180) / 2) with 0 by field.
    rewrite sin_0. unfold Rabs. destruct (Rcase_abs (lat2 - lat1)).
    - replace (- (lat2 - lat1) * (PI / 180) / 2)
        with (- ((lat2 - lat1) * (PI / 180) / 2)) by field.
      rewrite sin_neg. ring.
    - ring. }
  rewrite haversine_eq, Ha.
  assert (Hs : 0 <= sin t) by (apply sin_ge_0; lra).
  assert (Hc : 0 <= cos t) by (apply cos_ge_0; lra).
  rewrite sqrt_pow2 by assumption.
  replace (1 - sin t ^ 2) with (cos t ^ 2).
  - rewrite sqrt_pow2 by assumption. rewrite atan2_sin_cos by assumption.
    unfold t. field.
  - pose proof (sin2_cos2 t) as H2. unfold Rsqr in H2. nra.
Qed.

Lemma haversine_meridian_arc_witness :
  haversine 10 20 (-35) 20 = 6371 * radians 45.
Proof.
  assert (Habs : Rabs (-35 - 10) = 45)
    by (unfold Rabs; destruct (Rcase_abs (-35 - 10)); lra).
  rewrite <- Habs. apply haversine_meridian_arc. rewrite Habs. lra.
Defined.

(** X3. [haversine] depends on the longitudes through their difference
    only: it is unchanged when both longitudes are shifted by the same
    amount, when one longitude is turned by 360 degrees, and when both
    points are mirrored in the equator. *)
Theorem haversine_symmetries (lat1 lon1 lat2 lon2 : R) :
  (forall t,
     haversine lat1 (lon1 + t) lat2 (lon2 + t)
     = haversine lat1 lon1 lat2 lon2) /\
  haversine lat1 lon1 lat2 (lon2 + 360) = haversine lat1 lon1 lat2 lon2 /\
  haversine (- lat1) lon1 (- lat2) lon2 = haversine lat1 lon1 lat2 lon2.
Proof.
  split; [ | split].
  - intros t. rewrite !haversine_eq.
    replace (haversine_a lat1 (lon1 + t) lat2 (lon2 + t))
      with (haversine_a lat1 lon1 lat2 lon2); [reflexivity | ].
    unfold haversine_a. now replace (lon2 + t - (lon1 + t)) with (lon2 - lon1) by ring.
  - rewrite !haversine_eq.
    replace (haversine_a lat1 lon1 lat2 (lon2 + 360))
      with (haversine_a lat1 lon1 lat2 lon2); [reflexivity | ].
    unfold haversine_a, radians.
    replace ((lon2 + 360 - lon1) * (PI / 180) / 2)
      with ((lon2 - lon1) * (PI / 180) / 2 + PI) by field.
    rewrite neg_sin. ring.
  - rewrite !haversine_eq.
    replace (haversine_a (- lat1) lon1 (- lat2) lon2)
      with (haversine_a lat1 lon1 lat2 lon2); [reflexivity | ].
    unfold haversine_a, radians.
    replace (- lat1 * (PI / 180)) with (- (lat1 * (PI / 180))) by ring.
    replace (- lat2 * (PI / 180)) with (- (lat2 * (PI / 180))) by ring.
    replace ((- lat2 - - lat1) * (PI / 180) / 2)
      with (- ((lat2 - lat1) * (PI / 180) / 2)) by field.
    rewrite !cos_neg, sin_neg. ring.
Qed.

(** ** Sampling and the playlist *)

Section SamplingExtras.

Context {polygon : Type} `{Shapely polygon}.

Lemma polygon_loop_never_raises (poly : polygon) (bnds : R * R * R * R)
    (points_count : Z) (e : exn) :
  forall fuel st, polygon_loop fuel poly bnds points_count st <> Raise e.
Proof.
  induction fuel as [ | fuel IH]; intros st; cbn [polygon_loop];
    destruct (Z.of_nat (List.length (fst st)) <? points_count)%Z;
    try discriminate.
  apply IH.
Qed.

Lemma radius_point_tail (lat_center lon_center radius : R) (g : rng)
    (i : nat) :
  radius_point lat_center lon_center radius (fun k => g (S (S k))) i
  = radius_point lat_center lon_center radius g (S i).
Proof.
  unfold radius_point.
  replace (2 * S i)%nat with (S (S (2 * i))) by lia.
  replace (S (S (2 * i)) + 1)%nat with (S (S (2 * i + 1))) by lia.
  reflexivity.
Qed.

Lemma radius_loop_closed (lat_center lon_center radius : R) :
  forall n points g points' g',
    radius_loop n lat_center lon_center radius points g = Ok (points', g') ->
    points' =
    points ++ map (radius_point lat_center lon_center radius g) (seq 0 n) /\
    forall k, g' k = g (2 * n + k)%nat.
Proof.
  induction n as [ | n IH]; intros points g points' g' Hrun.
  - injection Hrun as <- <-. split; [now rewrite app_nil_r | reflexivity].
  - cbn [radius_loop uniform random] in Hrun.
    destruct (truediv _ _) as [d_lon | | ] eqn:Hdiv in Hrun; try discriminate.
    cbn [bind] in Hrun. apply truediv_inv in Hdiv as [_ ->].
    apply IH in Hrun as [-> Htape]. split.
    + rewrite <- app_assoc. cbn [app seq map]. do 2 f_equal.
      rewrite <- seq_shift, map_map. apply map_ext. intros i.
      apply radius_point_tail.
    + intros k. rewrite Htape. f_equal. lia.
Qed.

Lemma build_flytos_zero_speed (points : list (R * R)) (altitude : R) :
  (2 <= List.length points)%nat ->
  build_flytos points altitude 0 = Raise ZeroDivisionError.
Proof.
  destruct points as [ | [lat0 lon0] [ | [lat1 lon1] rest]]; cbn [List.length];
    try lia.
  intros _. unfold build_flytos.
  cbn [List.length seq flyto_loop getitem nth_error bind segment_duration
       Nat.eqb Nat.sub app].
  now rewrite truediv_zero.
Qed.

Lemma build_flytos_altitude (points : list (R * R)) (alt speed : R)
    (doc : kml) :
  build_flytos points alt speed = Ok doc ->
  Forall (fun f => altitude f = alt) doc.
Proof.
  intros Hdoc. apply build_flytos_inv in Hdoc as [_ Hnth].
  apply Forall_forall. intros f Hin.
  apply In_nth_error in Hin as [i Hi].
  now apply Hnth in Hi as (lat & lon & d & _ & _ & ->).
Qed.

Lemma points_of_nth (doc : kml) (i : nat) (f : FlyTo) (p : R * R) (n : nat) :
  points_of doc = repeat p n -> nth_error doc i = Some f ->
  (latitude f, longitude f) = p.
Proof.
  intros Hpts Hf.
  assert (Hin : In (latitude f, longitude f) (points_of doc)).
  { unfold points_of. apply in_map_iff. exists f. split; [reflexivity | ].
    eapply nth_error_In, Hf. }
  rewrite Hpts in Hin. now apply repeat_spec in Hin.
Qed.

End SamplingExtras.

(** X4. Polygon-mode sampling returns exactly when the polygon contains at
    least [points_count] of the points drawn in the iterations granted; it
    then returns [max 0 points_count] points, and it raises nothing. *)
Theorem polygon_sampling_returns_iff {polygon : Type} `{Shapely polygon}
    (fuel : nat) (region_center : option (R * R)) (radius : option R)
    (points_count : Z) (poly : polygon) (g : rng) :
  ((exists points g',
      sample_points fuel region_center radius points_count (Some poly) g
      = Ok (points, g')) <->
   (points_count <= Z.of_nat (accepted poly (bounds poly) g fuel))%Z) /\
  (forall points g',
     sample_points fuel region_center radius points_count (Some poly) g
     = Ok (points, g') ->
     Z.of_nat (List.length points) = Z.max 0 points_count) /\
  (forall e,
     sample_points fuel region_center radius points_count (Some poly) g
     <> Raise e).
Proof.
  cbn [sample_points]. split; [ | split].
  - pose proof (polygon_loop_returns_iff poly (bounds poly) points_count
                  fuel [] g) as Hiff.
    cbn [List.length] in Hiff. rewrite Z.sub_0_r in Hiff. rewrite <- Hiff.
    split; [intros (points & g' & Hrun) | intros ([points g'] & Hrun)];
      eauto.
  - intros points g' Hrun.
    apply polygon_loop_length in Hrun; [exact Hrun | cbn; lia].
  - intros e. apply polygon_loop_never_raises.
Qed.

Lemma polygon_sampling_returns_iff_witness :
  exists points g',
    sample_points 3 None None 2 (Some ((0, 0, 2, 2) : box)) halves
    = Ok (points, g').
Proof.
  apply (proj2 (proj1 (polygon_sampling_returns_iff 3 None None 2%Z
                         ((0, 0, 2, 2) : box) halves))).
  cbn [bounds box_shapely].
  rewrite (accepted_all _ _ 3 halves halves_inside_square). lia.
Defined.

(** X5. In radius mode point [i] is made of draws [2 * i] and [2 * i + 1]
    of the generator and of nothing else, and a call that returns has
    consumed two draws for each point. *)
Theorem radius_mode_points_closed_form {polygon : Type} `{Shapely polygon}
    (fuel : nat) (lat_center lon_center radius : R) (points_count : Z)
    (g : rng) (points : list (R * R)) (g' : rng) :
  sample_points fuel (Some (lat_center, lon_center)) (Some radius)
    points_count (@None polygon) g = Ok (points, g') ->
  points = map (radius_point lat_center lon_center radius g)
               (seq 0 (Z.to_nat points_count)) /\
  forall k, g' k = g (2 * Z.to_nat points_count + k)%nat.
Proof.
  cbn [sample_points]. intros Hrun.
  now apply radius_loop_closed in Hrun.
Qed.

Lemma radius_mode_points_closed_form_witness :
  exists points g',
    sample_points 0 (Some (0, 0)) (Some 10) 2 (@None box) halves
    = Ok (points, g') /\
    points = [radius_point 0 0 10 halves 0; radius_point 0 0 10 halves 1] /\
    forall k, g' k = halves (4 + k)%nat.
Proof.
  destruct (radius_loop_total 0 0 10 cos_radians_0_neq 2 [] halves)
    as (points & g' & Hrun).
  exists points, g'. split; [exact Hrun | ].
  exact (radius_mode_points_closed_form (polygon := box) 0 0 0 10 2%Z halves
           points g' Hrun).
Defined.

(** X6. The document returned has one element for each sampled point, in
    the order sampled; element [i] carries the latitude and the longitude of
    point [i] and the altitude passed to the call. *)
Theorem generated_elements_carry_points {polygon : Type} `{Shapely polygon}
    (fuel : nat) (region_center : option (R * R)) (radius : option R)
    (points_count : Z) (alt speed : R) (poly : option polygon) (g : rng)
    (doc : kml) :
  generate_random_kml fuel region_center radius points_count alt speed poly g
  = Ok doc ->
  exists points g',
    sample_points fuel region_center radius points_count poly g
    = Ok (points, g') /\
    map (fun f => (latitude f, longitude f)) doc = points /\
    Forall (fun f => altitude f = alt) doc.
Proof.
  intros Hrun. apply generate_inv in Hrun as (points & g' & Hs & Hdoc & Hpts).
  exists points, g'. split; [exact Hs | split; [exact Hpts | ]].
  eapply build_flytos_altitude, Hdoc.
Qed.

Lemma generated_elements_carry_points_witness :
  exists doc,
    generate_random_kml 0 (Some (0, 0)) (Some 111) 2 1000 100 (@None box)
      half_half_zero = Ok doc /\
    map (fun f => (latitude f, longitude f)) doc = [(0, 0); (-1, 0)] /\
    Forall (fun f => altitude f = 1000) doc.
Proof.
  eexists. split; [apply meridian_run; lra | ].
  destruct (generated_elements_carry_points (polygon := box) _ _ _ _ _ _ _ _ _
              (meridian_run 100 ltac:(lra)))
    as (points & g' & Hs & Hpts & Halt).
  destruct (meridian_points 0) as [g'' Hs']. rewrite Hs' in Hs.
  injection Hs as <- _. split; [exact Hpts | exact Halt].
Defined.

(** X7. With the radius 0 every point sampled in radius mode is the centre
    itself, and every segment after the first lasts 0 seconds. *)
Theorem zero_radius_stays_at_centre {polygon : Type} `{Shapely polygon}
    (fuel : nat) (lat_center lon_center : R) (points_count : Z)
    (alt speed : R) (g : rng) :
  cos (radians lat_center) <> 0 -> speed <> 0 ->
  exists doc,
    generate_random_kml fuel (Some (lat_center, lon_center)) (Some 0)
      points_count alt speed (@None polygon) g = Ok doc /\
    points_of doc
    = repeat (lat_center, lon_center) (Z.to_nat points_count) /\
    forall i f, nth_error doc (S i) = Some f -> duration f = 0.
Proof.
  intros Hcos Hspeed.
  destruct (generate_radius_total (polygon := polygon) fuel lat_center
              lon_center 0 points_count alt speed g (or_introl Hcos)
              (or_introl Hspeed)) as [doc Hrun].
  exists doc. split; [exact Hrun | ].
  destruct (generate_inv _ _ _ _ _ _ _ _ _ Hrun)
    as (points & g' & Hs & Hdoc & Hpts).
  cbn [sample_points] in Hs. apply radius_loop_closed in Hs as [Hclosed _].
  assert (Hrep : points_of doc
                 = repeat (lat_center, lon_center) (Z.to_nat points_count)).
  { assert (Hpoint : forall i,
      radius_point lat_center lon_center 0 g i = (lat_center, lon_center)).
    { intros i. unfold radius_point. f_equal; field.
      now apply Rabs_no_R0. }
    assert (Hmap : forall l,
      map (radius_point lat_center lon_center 0 g) l
      = repeat (lat_center, lon_center) (List.length l)).
    { induction l as [ | i l IH]; [reflexivity | ].
      cbn [map List.length repeat]. now rewrite Hpoint, IH. }
    rewrite Hpts, Hclosed. cbn [app]. now rewrite Hmap, length_seq. }
  split; [exact Hrep | ].
  intros i f Hf.
  destruct (nth_error doc i) as [prev | ] eqn:Hprev.
  - destruct (consecutive_flytos _ _ _ _ _ _ _ Hdoc Hprev Hf) as [_ ->].
    pose proof (points_of_nth _ _ _ _ _ Hrep Hprev) as Hp.
    pose proof (points_of_nth _ _ _ _ _ Hrep Hf) as Hc.
    injection Hp as -> ->. injection Hc as -> ->.
    rewrite haversine_same. field. exact Hspeed.
  - apply nth_error_None in Hprev.
    assert (S i < List.length doc)%nat by (apply nth_error_Some; congruence).
    lia.
Qed.

Lemma zero_radius_stays_at_centre_witness :
  exists doc,
    generate_random_kml 0 (Some (0, 0)) (Some 0) 3 1000 100 (@None box)
      halves = Ok doc /\
    points_of doc = [(0, 0); (0, 0); (0, 0)] /\
    forall i f, nth_error doc (S i) = Some f -> duration f = 0.
Proof.
  apply (zero_radius_stays_at_centre (polygon := box) 0 0 0 3%Z 1000 100
           halves).
  - exact cos_radians_0_neq.
  - lra.
Defined.

(** X8. At the speed 0 a call that has sampled two points or more does
    not return: it ends on an exception when it comes to the second
    duration, in either mode ([ZeroDivisionError] at the division by the
    speed, unless the distance has raised [ValueError] before it); with one
    point or none it returns, no division taking place. *)
Theorem zero_speed_outcome {polygon : Type} `{Shapely polygon}
    (fuel : nat) (region_center : option (R * R)) (radius : option R)
    (points_count : Z) (alt : R) (poly : option polygon) (g : rng)
    (points : list (R * R)) (g' : rng) :
  sample_points fuel region_center radius points_count poly g
  = Ok (points, g') ->
  ((2 <= List.length points)%nat ->
   exists e,
     generate_random_kml fuel region_center radius points_count alt 0 poly g
     = Raise e /\
     (e = ZeroDivisionError \/ e = ValueError)) /\
  ((List.length points <= 1)%nat ->
   exists doc,
     generate_random_kml fuel region_center radius points_count alt 0 poly g
     = Ok doc /\ points_of doc = points).
Proof.
  intros Hs. unfold generate_random_kml. rewrite Hs. cbn [bind]. split.
  - intros Hlen. exists ZeroDivisionError.
    split; [now apply build_flytos_zero_speed | now left].
  - intros Hle.
    destruct (build_flytos_total points alt 0 (or_intror Hle)) as [doc Hdoc].
    exists doc. split; [exact Hdoc | now apply build_flytos_points in Hdoc].
Qed.

Lemma zero_speed_outcome_witness :
  exists e,
    generate_random_kml 3 None None 2 1000 0 (Some ((0, 0, 2, 2) : box))
      halves = Raise e.
Proof.
  destruct (polygon_loop_feeds ((0, 0, 2, 2) : box) (0, 0, 2, 2) 2 3 []
              halves halves_inside_square) as [[points g'] Hs];
    [cbn; lia | ].
  destruct (proj1 (zero_speed_outcome 3 None None 2%Z 1000
                     (Some ((0, 0, 2, 2) : box)) halves points g' Hs))
    as (e & He & _).
  - apply polygon_loop_length in Hs; [ | cbn; lia]. cbn [fst] in Hs. lia.
  - exists e. exact He.
Defined.

(** ** [main] *)

Section MainExtras.

Context {polygon : Type} `{Shapely polygon} `{Builtins}.

(** The three forms of the command line and the branch each one takes. *)
Lemma main_radius_keyword (fuel : nat) (fs : filesystem) (g : rng)
    (script keyword a1 a2 a3 a4 a5 a6 : string) :
  lower keyword = "radius"%string ->
  main fuel fs g [script; keyword; a1; a2; a3; a4; a5; a6]
  = radius_branch fuel g "Flythrough_" "_flyover.kml" a1 a2 a3 a4 a5 a6.
Proof.
  intros Hk. unfold main. cbn [List.length Nat.ltb Nat.leb nth].
  rewrite Hk. reflexivity.
Qed.

Lemma main_polygon_keyword (fuel : nat) (fs : filesystem) (g : rng)
    (script keyword path a1 a2 a3 : string) :
  lower keyword = "polygon"%string ->
  main fuel fs g [script; keyword; path; a1; a2; a3]
  = polygon_branch fuel fs g path a1 a2 a3.
Proof.
  intros Hk. unfold main. cbn [List.length Nat.ltb Nat.leb nth].
  rewrite Hk. reflexivity.
Qed.

Lemma main_radius_bare (fuel : nat) (fs : filesystem) (g : rng)
    (script a1 a2 a3 a4 a5 a6 : string) :
  main fuel fs g [script; a1; a2; a3; a4; a5; a6]
  = radius_branch fuel g "flythrough_" ".kml" a1 a2 a3 a4 a5 a6.
Proof.
  unfold main. cbn [List.length Nat.ltb Nat.leb nth Nat.eqb].
  now rewrite !andb_false_r.
Qed.

(** The radius branch on strings that read as numbers: the outcome is that
    of the call of [generate_random_kml]. *)
Lemma radius_branch_valid (fuel : nat) (g : rng) (head tail : string)
    (lat_s lon_s radius_s count_s altitude_s speed_s : string)
    (lat lon radius : R) (points_count : Z) (alt speed : R) (w : world) :
  radius_arguments lat_s lon_s radius_s count_s altitude_s speed_s
    lat lon radius points_count alt speed ->
  radius_branch fuel g head tail lat_s lon_s radius_s count_s altitude_s
    speed_s w
  = match generate_random_kml fuel (Some (lat, lon)) (Some radius)
            points_count alt speed (@None polygon) g with
    | Ok doc =>
        let name := radius_file_name head tail lat lon radius in
        (mkWorld
           (stdout w ++ [("Radius-based flythrough KML saved to " ++ name)%string])
           (written w ++ [(name, doc)]), Ok tt)
    | Raise ValueError =>
        (mkWorld (stdout w ++ [invalid_numerical_input]) (written w), Ok tt)
    | Raise e => (w, Raise e)
    | OutOfFuel => (w, OutOfFuel)
    end.
Proof.
  intros (Hlat & Hlon & Hrad & Hcount & Halt & Hspeed).
  unfold radius_branch, try_except_ValueError, io_bind, lift.
  rewrite (float_ok _ _ Hlat), (float_ok _ _ Hlon), (float_ok _ _ Hrad),
    (int_ok _ _ Hcount), (float_ok _ _ Halt), (float_ok _ _ Hspeed).
  destruct (generate_random_kml _ _ _ _ _ _ _ _) as [doc | e | ];
    [reflexivity | now destruct e | reflexivity].
Qed.

(** The radius branch when one of the strings does not read as a number. *)
Lemma radius_branch_invalid (fuel : nat) (g : rng) (head tail : string)
    (lat_s lon_s radius_s count_s altitude_s speed_s : string) (w : world) :
  float_of_str lat_s = None \/ float_of_str lon_s = None \/
  float_of_str radius_s = None \/ int_of_str count_s = None \/
  float_of_str altitude_s = None \/ float_of_str speed_s = None ->
  radius_branch fuel g head tail lat_s lon_s radius_s count_s altitude_s
    speed_s w
  = (mkWorld (stdout w ++ [invalid_numerical_input]) (written w), Ok tt).
Proof.
  intros Hbad.
  unfold radius_branch, try_except_ValueError, io_bind, lift, float, int.
  destruct (float_of_str lat_s); [ | reflexivity].
  destruct (float_of_str lon_s); [ | reflexivity].
  destruct (float_of_str radius_s); [ | reflexivity].
  destruct (int_of_str count_s); [ | reflexivity].
  destruct (float_of_str altitude_s); [ | reflexivity].
  destruct (float_of_str speed_s); [ | reflexivity].
  exfalso. intuition discriminate.
Qed.

Lemma radius_branch_tidy (fuel : nat) (g : rng) (head tail : string)
    (lat_s lon_s radius_s count_s altitude_s speed_s : string) :
  tidy (radius_branch fuel g head tail lat_s lon_s radius_s count_s
          altitude_s speed_s (mkWorld [] [])).
Proof.
  unfold radius_branch, try_except_ValueError, io_bind, lift, float, int.
  destruct (float_of_str lat_s); [ | cbn; split; [discriminate | lia]].
  destruct (float_of_str lon_s); [ | cbn; split; [discriminate | lia]].
  destruct (float_of_str radius_s); [ | cbn; split; [discriminate | lia]].
  destruct (int_of_str count_s); [ | cbn; split; [discriminate | lia]].
  destruct (float_of_str altitude_s); [ | cbn; split; [discriminate | lia]].
  destruct (float_of_str speed_s); [ | cbn; split; [discriminate | lia]].
  destruct (generate_random_kml _ _ _ _ _ _ _ _) as [doc | e | ].
  - cbn. split; [discriminate | lia].
  - destruct e; cbn; split; try discriminate; try reflexivity; lia.
  - reflexivity.
Qed.

(** The polygon branch on strings that read as numbers. *)
Lemma polygon_branch_valid (fuel : nat) (fs : filesystem) (g : rng)
    (path count_s altitude_s speed_s : string) (points_count : Z)
    (alt speed : R) (w : world) :
  int_of_str count_s = Some points_count ->
  float_of_str altitude_s = Some alt ->
  float_of_str speed_s = Some speed ->
  polygon_branch fuel fs g path count_s altitude_s speed_s w
  = match parse_polygon_from_kml fs path w with
    | (w', Ok (Some poly)) =>
        match generate_random_kml fuel None None points_count alt speed
                (Some poly) g with
        | Ok doc =>
            let name := polygon_file_name path in
            (mkWorld
               (stdout w' ++ [("Polygon-based flythrough KML saved to " ++ name)%string])
               (written w' ++ [(name, doc)]), Ok tt)
        | Raise ValueError =>
            (mkWorld (stdout w' ++ [invalid_polygon_input]) (written w'),
             Ok tt)
        | Raise e => (w', Raise e)
        | OutOfFuel => (w', OutOfFuel)
        end
    | (w', Ok None) => (w', Ok tt)
    | (w', Raise ValueError) =>
        (mkWorld (stdout w' ++ [invalid_polygon_input]) (written w'), Ok tt)
    | (w', Raise e) => (w', Raise e)
    | (w', OutOfFuel) => (w', OutOfFuel)
    end.
Proof.
  intros Hcount Halt Hspeed.
  unfold polygon_branch, try_except_ValueError, io_bind, lift.
  rewrite (int_ok _ _ Hcount), (float_ok _ _ Halt), (float_ok _ _ Hspeed).
  destruct (parse_polygon_from_kml fs path w) as [w' [[poly | ] | e | ]];
    [ | reflexivity | now destruct e | reflexivity].
  destruct (generate_random_kml _ _ _ _ _ _ _ _) as [doc | e | ];
    [reflexivity | now destruct e | reflexivity].
Qed.

Lemma polygon_branch_invalid (fuel : nat) (fs : filesystem) (g : rng)
    (path count_s altitude_s speed_s : string) (w : world) :
  int_of_str count_s = None \/ float_of_str altitude_s = None \/
  float_of_str speed_s = None ->
  polygon_branch fuel fs g path count_s altitude_s speed_s w
  = (mkWorld (stdout w ++ [invalid_polygon_input]) (written w), Ok tt).
Proof.
  intros Hbad.
  unfold polygon_branch, try_except_ValueError, io_bind, lift, float, int.
  destruct (int_of_str count_s); [ | reflexivity].
  destruct (float_of_str altitude_s); [ | reflexivity].
  destruct (float_of_str speed_s); [ | reflexivity].
  exfalso. intuition discriminate.
Qed.

(** Reading the polygon prints at most one line, and only when it returns
    [None]; it writes nothing. *)
Lemma parse_polygon_outcome (fs : filesystem) (path : string) :
  match parse_polygon_from_kml fs path (mkWorld [] []) with
  | (w, Ok (Some _)) => w = mkWorld [] []
  | (w, Ok None) => stdout w <> [] /\ written w = []
  | (w, _) => w = mkWorld [] []
  end.
Proof.
  unfold parse_polygon_from_kml, io_bind, lift, print, ret.
  destruct (fs path) as [ | | root]; cbn.
  - split; [discriminate | reflexivity].
  - reflexivity.
  - destruct (placemark_loop _) as [[poly | ] | e | ]; cbn;
      try reflexivity.
    split; [discriminate | reflexivity].
Qed.

Lemma polygon_branch_tidy (fuel : nat) (fs : filesystem) (g : rng)
    (path count_s altitude_s speed_s : string) :
  tidy (polygon_branch fuel fs g path count_s altitude_s speed_s
          (mkWorld [] [])).
Proof.
  destruct (int_of_str count_s) as [c | ] eqn:Hc;
    [ | rewrite polygon_branch_invalid by auto; cbn;
        split; [discriminate | lia]].
  destruct (float_of_str altitude_s) as [a | ] eqn:Ha;
    [ | rewrite polygon_branch_invalid by auto; cbn;
        split; [discriminate | lia]].
  destruct (float_of_str speed_s) as [s | ] eqn:Hs;
    [ | rewrite polygon_branch_invalid by auto; cbn;
        split; [discriminate | lia]].
  rewrite (polygon_branch_valid _ _ _ _ _ _ _ _ _ _ _ Hc Ha Hs).
  pose proof (parse_polygon_outcome fs path) as Hparse.
  destruct (parse_polygon_from_kml fs path (mkWorld [] []))
    as [w' [[poly | ] | e | ]].
  - subst w'.
    destruct (generate_random_kml _ _ _ _ _ _ _ _) as [doc | e | ].
    + cbn. split; [discriminate | lia].
    + destruct e; cbn; split; try discriminate; try reflexivity; lia.
    + reflexivity.
  - destruct Hparse as [Hout Hwritten]. cbn. rewrite Hwritten.
    split; [exact Hout | cbn; lia].
  - subst w'. destruct e; cbn; split; try discriminate; try reflexivity; lia.
  - subst w'. reflexivity.
Qed.

End MainExtras.

(** X9. With no argument [main] prints the usage text; with arguments that
    fit none of its three forms (eight with the keyword radius, six with
    the keyword polygon, seven) it prints its two lines on invalid
    arguments; in both cases nothing is written and nothing raised. *)
Theorem main_usage_and_unknown_arguments {polygon : Type} `{Shapely polygon}
    `{Builtins} (fuel : nat) (fs : filesystem) (g : rng)
    (argv : list string) :
  ((List.length argv < 2)%nat ->
   run fuel fs g argv = (mkWorld [usage] [], Ok tt)) /\
  ((2 <= List.length argv)%nat ->
   List.length argv <> 7%nat ->
   (List.length argv = 8%nat -> lower (nth 1 argv ""%string) <> "radius"%string) ->
   (List.length argv = 6%nat -> lower (nth 1 argv ""%string) <> "polygon"%string) ->
   run fuel fs g argv
   = (mkWorld ["Error: Invalid arguments provided."%string;
               "Run the script without arguments for usage instructions."%string]
              [], Ok tt)).
Proof.
  unfold run, main. split.
  - intros Hlen. apply Nat.ltb_lt in Hlen. now rewrite Hlen.
  - intros Hlen H7 H8 H6.
    apply Nat.ltb_ge in Hlen. rewrite Hlen.
    apply Nat.eqb_neq in H7. rewrite H7.
    assert (Hr : (String.eqb (lower (nth 1 argv ""%string)) "radius"
                  && (List.length argv =? 8)%nat)%bool = false).
    { destruct (List.length argv =? 8)%nat eqn:E; [ | apply andb_false_r].
      apply Nat.eqb_eq in E. apply H8 in E. apply String.eqb_neq in E.
      now rewrite E. }
    assert (Hp : (String.eqb (lower (nth 1 argv ""%string)) "polygon"
                  && (List.length argv =? 6)%nat)%bool = false).
    { destruct (List.length argv =? 6)%nat eqn:E; [ | apply andb_false_r].
      apply Nat.eqb_eq in E. apply H6 in E. apply String.eqb_neq in E.
      now rewrite E. }
    rewrite Hr, Hp. reflexivity.
Qed.

Lemma main_usage_and_unknown_arguments_witness :
  run (polygon := box) 0 shelf halves ["randomized_flyover_generator.py"%string]
  = (mkWorld [usage] [], Ok tt) /\
  run (polygon := box) 0 shelf halves
    ["randomized_flyover_generator.py"; "circle"; "1"; "2"; "3"; "4"; "5";
     "6"]%string
  = (mkWorld ["Error: Invalid arguments provided."%string;
              "Run the script without arguments for usage instructions."%string]
             [], Ok tt).
Proof.
  split.
  - apply (proj1 (main_usage_and_unknown_arguments (polygon := box) 0 shelf
                    halves ["randomized_flyover_generator.py"%string])).
    cbn. lia.
  - apply (proj2 (main_usage_and_unknown_arguments (polygon := box) 0 shelf
                    halves _)).
    + cbn. lia.
    + cbn. lia.
    + intros _. discriminate.
    + cbn. lia.
Defined.

(** X10. In both radius forms, as soon as one of the six values does not
    read as a number the run prints the message on invalid numerical input,
    writes no file and raises nothing. *)
Theorem radius_forms_reject_bad_numbers {polygon : Type} `{Shapely polygon}
    `{Builtins} (fuel : nat) (fs : filesystem) (g : rng)
    (script keyword lat_s lon_s radius_s count_s altitude_s speed_s : string) :
  float_of_str lat_s = None \/ float_of_str lon_s = None \/
  float_of_str radius_s = None \/ int_of_str count_s = None \/
  float_of_str altitude_s = None \/ float_of_str speed_s = None ->
  lower keyword = "radius"%string ->
  run fuel fs g
    [script; keyword; lat_s; lon_s; radius_s; count_s; altitude_s; speed_s]
  = (mkWorld [invalid_numerical_input] [], Ok tt) /\
  run fuel fs g
    [script; lat_s; lon_s; radius_s; count_s; altitude_s; speed_s]
  = (mkWorld [invalid_numerical_input] [], Ok tt).
Proof.
  intros Hbad Hk. unfold run.
  rewrite (main_radius_keyword _ _ _ _ _ _ _ _ _ _ _ Hk), main_radius_bare.
  now rewrite !radius_branch_invalid by exact Hbad.
Qed.

Lemma radius_forms_reject_bad_numbers_witness :
  run (polygon := box) 0 shelf halves
    ["randomized_flyover_generator.py"; "Radius"; "37.7749"; "-122.4194";
     "ten"; "10"; "1500"; "100"]%string
  = (mkWorld [invalid_numerical_input] [], Ok tt) /\
  run (polygon := box) 0 shelf halves
    ["randomized_flyover_generator.py"; "37.7749"; "-122.4194"; "ten"; "10";
     "1500"; "100"]%string
  = (mkWorld [invalid_numerical_input] [], Ok tt).
Proof.
  apply (radius_forms_reject_bad_numbers (polygon := box)).
  - right. right. left. reflexivity.
  - reflexivity.
Defined.

(** X11. In the polygon form, when the count, the altitude or the speed
    does not read as a number the run prints the message on invalid input
    and stops there: the outcome is the same whatever the polygon file is,
    which is not read. *)
Theorem polygon_form_rejects_bad_numbers {polygon : Type} `{Shapely polygon}
    `{Builtins} (fuel : nat) (fs : filesystem) (g : rng)
    (script keyword path count_s altitude_s speed_s : string) :
  int_of_str count_s = None \/ float_of_str altitude_s = None \/
  float_of_str speed_s = None ->
  lower keyword = "polygon"%string ->
  run fuel fs g [script; keyword; path; count_s; altitude_s; speed_s]
  = (mkWorld [invalid_polygon_input] [], Ok tt).
Proof.
  intros Hbad Hk. unfold run.
  rewrite (main_polygon_keyword _ _ _ _ _ _ _ _ _ Hk).
  now rewrite polygon_branch_invalid by exact Hbad.
Qed.

Lemma polygon_form_rejects_bad_numbers_witness :
  run (polygon := box) 0 shelf halves
    ["randomized_flyover_generator.py"; "polygon"; "broken.kml"; "10";
     "high"; "100"]%string
  = (mkWorld [invalid_polygon_input] [], Ok tt).
Proof.
  apply (polygon_form_rejects_bad_numbers (polygon := box)).
  - right. left. reflexivity.
  - reflexivity.
Defined.

(** X12. On six values that read as numbers, when [generate_random_kml]
    returns a document, both radius forms write that document, of
    [max 0 points_count] elements, to one file and print where they saved
    it; the form with the keyword names the file
    [Flythrough_..._flyover.kml], the form without it [flythrough_....kml]. *)
Theorem radius_forms_write_one_file {polygon : Type} `{Shapely polygon}
    `{Builtins} (fuel : nat) (fs : filesystem) (g : rng)
    (script keyword lat_s lon_s radius_s count_s altitude_s speed_s : string)
    (lat lon radius : R) (points_count : Z) (alt speed : R) (doc : kml) :
  radius_arguments lat_s lon_s radius_s count_s altitude_s speed_s
    lat lon radius points_count alt speed ->
  generate_random_kml fuel (Some (lat, lon)) (Some radius) points_count alt
    speed (@None polygon) g = Ok doc ->
  lower keyword = "radius"%string ->
  Z.of_nat (List.length doc) = Z.max 0 points_count /\
  run fuel fs g
    [script; keyword; lat_s; lon_s; radius_s; count_s; altitude_s; speed_s]
  = (let name :=
       radius_file_name "Flythrough_" "_flyover.kml" lat lon radius in
     (mkWorld [("Radius-based flythrough KML saved to " ++ name)%string]
              [(name, doc)], Ok tt)) /\
  run fuel fs g
    [script; lat_s; lon_s; radius_s; count_s; altitude_s; speed_s]
  = (let name := radius_file_name "flythrough_" ".kml" lat lon radius in
     (mkWorld [("Radius-based flythrough KML saved to " ++ name)%string]
              [(name, doc)], Ok tt)).
Proof.
  intros Hargs Hdoc Hk.
  split; [now apply generate_radius_length in Hdoc | ].
  unfold run.
  rewrite (main_radius_keyword _ _ _ _ _ _ _ _ _ _ _ Hk), main_radius_bare.
  rewrite !(radius_branch_valid _ _ _ _ _ _ _ _ _ _ _ _ _ _ _ _ _ Hargs).
  rewrite Hdoc. split; reflexivity.
Qed.

Lemma radius_forms_write_one_file_witness :
  exists doc,
    Z.of_nat (List.length doc) = 2%Z /\
    run (polygon := box) 0 shelf halves
      ["randomized_flyover_generator.py"; "radius"; "0"; "0"; "0"; "2";
       "1500"; "100"]%string
    = (mkWorld
         ["Radius-based flythrough KML saved to Flythrough_0.0_0.0_radius_0.0_flyover.kml"%string]
         [("Flythrough_0.0_0.0_radius_0.0_flyover.kml"%string, doc)], Ok tt).
Proof.
  destruct (generate_radius_total (polygon := box) 0 0 0 0 2 1500 100 halves)
    as [doc Hdoc]; [left; exact cos_radians_0_neq | left; lra | ].
  exists doc.
  destruct (radius_forms_write_one_file (polygon := box) 0 shelf halves
              "randomized_flyover_generator.py" "radius" "0" "0" "0" "2"
              "1500" "100" 0 0 0 2%Z 1500 100 doc)
    as (Hlen & Hrun & _).
  - repeat split; reflexivity.
  - exact Hdoc.
  - reflexivity.
  - split; [exact Hlen | exact Hrun].
Defined.

Section ParseExtras.

Context {polygon : Type} `{Shapely polygon} `{Builtins}.

Lemma mapM_ok_or_raises {A B : Type} (f : A -> result B) (e : exn) :
  forall l,
    (forall a, In a l -> (exists b, f a = Ok b) \/ f a = Raise e) ->
    (exists bs, mapM f l = Ok bs) \/ mapM f l = Raise e.
Proof.
  induction l as [ | a l IH]; intros Hall; [left; now exists [] | ].
  cbn [mapM].
  destruct (Hall a (or_introl eq_refl)) as [[b ->] | ->]; [ | now right].
  cbn [bind].
  destruct IH as [[bs ->] | ->];
    [intros a' Ha'; apply Hall; now right | left; now eexists | now right].
Qed.

Lemma mapM_raises {A B : Type} (f : A -> result B) (e : exn) :
  forall l,
    (forall a, In a l -> (exists b, f a = Ok b) \/ f a = Raise e) ->
    (exists a, In a l /\ f a = Raise e) ->
    mapM f l = Raise e.
Proof.
  induction l as [ | a l IH]; intros Hall (bad & Hin & Hbad);
    [contradiction | ].
  cbn [mapM].
  destruct (Hall a (or_introl eq_refl)) as [[b Hb] | ->]; [ | reflexivity].
  rewrite Hb. cbn [bind].
  destruct Hin as [-> | Hin]; [congruence | ].
  rewrite IH; [reflexivity | | now exists bad].
  intros a' Ha'. apply Hall. now right.
Qed.

Lemma float_ok_or_raises (s : string) :
  (exists r, float s = Ok r) \/ float s = Raise ValueError.
Proof.
  unfold float. destruct (float_of_str s); [left; now eexists | now right].
Qed.

(** A component that is not a number, among the first two of an item, makes
    the list comprehension raise [ValueError]. *)
Lemma coordinates_of_raises (coordinates_text item component : string) :
  In item (split_ws coordinates_text) ->
  In component (firstn 2 (split_on "," item)) ->
  float_of_str component = None ->
  coordinates_of coordinates_text = Raise ValueError.
Proof.
  intros Hitem Hcomp Hbad. unfold coordinates_of. apply mapM_raises.
  - intros coord _. apply mapM_ok_or_raises.
    intros s _. apply float_ok_or_raises.
  - exists item. split; [exact Hitem | ].
    apply mapM_raises.
    + intros s _. apply float_ok_or_raises.
    + exists component. split; [exact Hcomp | ].
      unfold float. now rewrite Hbad.
Qed.

End ParseExtras.

(** The file [square.kml] of the examples gives the square of its first
    polygon. *)
Lemma square_file_parses :
  parse_polygon_from_kml shelf "square.kml"%string (mkWorld [] [])
  = (mkWorld [] [], Ok (Some ((0, 0, 2, 2) : box))).
Proof.
  unfold parse_polygon_from_kml.
  replace (shelf "square.kml"%string) with (Document two_polygons)
    by reflexivity.
  replace (findall Placemark_tag two_polygons)
    with ([Elem Placemark_tag None [Elem (kml_ns ++ "Point")%string None []]]
          ++ placemark_with square_ring :: [placemark_with other_ring])
    by reflexivity.
  rewrite (placemark_loop_first _ _ _
             (Elem Polygon_tag None
                [Elem (kml_ns ++ "outerBoundaryIs")%string None
                   [Elem (kml_ns ++ "LinearRing")%string None
                      [Elem coordinates_tag (Some square_ring) []]]]));
    [ | repeat constructor | reflexivity].
  unfold polygon_of_element.
  replace (find coordinates_tag _)
    with (Some (Elem coordinates_tag (Some square_ring) [])) by reflexivity.
  cbn [text].
  rewrite (coordinates_of_ok _ [[0; 0]; [2; 0]; [2; 2]; [0; 2]; [0; 0]]).
  - reflexivity.
  - change (split_ws (strip square_ring))
      with ["0,0,0"; "2,0,0"; "2,2,0"; "0,2,0"; "0,0,0"]%string.
    repeat constructor.
Qed.

(** In radius mode a call for two points or more at the speed 0 raises
    [ZeroDivisionError], at the poles already while sampling. *)
Lemma generate_radius_zero_speed {polygon : Type} `{Shapely polygon}
    (fuel : nat) (lat lon radius : R) (points_count : Z) (alt : R)
    (g : rng) :
  (2 <= points_count)%Z ->
  generate_random_kml fuel (Some (lat, lon)) (Some radius) points_count alt 0
    (@None polygon) g = Raise ZeroDivisionError.
Proof.
  intros Hcount. unfold generate_random_kml. cbn [sample_points].
  destruct (Req_dec_T (cos (radians lat)) 0) as [Hpole | Hcos].
  - destruct (Z.to_nat points_count) as [ | n] eqn:Hn; [lia | ].
    cbn [radius_loop uniform random].
    rewrite Hpole, Rabs_R0, Rmult_0_r, truediv_zero. reflexivity.
  - destruct (radius_loop_total lat lon radius Hcos (Z.to_nat points_count)
                [] g) as (points & g' & Hloop).
    rewrite Hloop. cbn [bind]. apply build_flytos_zero_speed.
    apply radius_loop_length in Hloop. cbn [List.length] in Hloop. lia.
Qed.

(** X13. In both radius forms a speed of 0 with two points or more asked
    for never writes a file: the run ends on [ZeroDivisionError], which the
    handler for [ValueError] lets through, with nothing printed, or else
    (the distance having raised [ValueError] before the division) on the
    message on invalid numerical input. *)
Theorem radius_forms_zero_speed {polygon : Type} `{Shapely polygon}
    `{Builtins} (fuel : nat) (fs : filesystem) (g : rng)
    (script keyword lat_s lon_s radius_s count_s altitude_s speed_s : string)
    (lat lon radius : R) (points_count : Z) (alt : R) :
  radius_arguments lat_s lon_s radius_s count_s altitude_s speed_s
    lat lon radius points_count alt 0 ->
  (2 <= points_count)%Z ->
  lower keyword = "radius"%string ->
  let fails (out : world * result unit) :=
    out = (mkWorld [] [], Raise ZeroDivisionError) \/
    out = (mkWorld [invalid_numerical_input] [], Ok tt) in
  fails (run fuel fs g
           [script; keyword; lat_s; lon_s; radius_s; count_s; altitude_s;
            speed_s]) /\
  fails (run fuel fs g
           [script; lat_s; lon_s; radius_s; count_s; altitude_s; speed_s]).
Proof.
  intros Hargs Hcount Hk fails. unfold fails, run.
  rewrite (main_radius_keyword _ _ _ _ _ _ _ _ _ _ _ Hk), main_radius_bare.
  rewrite !(radius_branch_valid _ _ _ _ _ _ _ _ _ _ _ _ _ _ _ _ _ Hargs).
  rewrite (generate_radius_zero_speed fuel lat lon radius points_count alt g
             Hcount).
  split; now left.
Qed.

Lemma radius_forms_zero_speed_witness :
  written
    (fst (run (polygon := box) 0 shelf halves
            ["randomized_flyover_generator.py"; "radius"; "0"; "0"; "10";
             "2"; "1500"; "0"]%string))
  = [].
Proof.
  destruct (proj1 (radius_forms_zero_speed (polygon := box) 0 shelf halves
                     "randomized_flyover_generator.py" "radius" "0" "0" "10"
                     "2" "1500" "0" 0 0 10 2%Z 1500
                     ltac:(repeat split; reflexivity) ltac:(lia) eq_refl))
    as [-> | ->]; reflexivity.
Defined.

(** X14. In the polygon form, once the file has given a polygon, the run
    writes the document generated for it under the name
    [flythrough_<stem>.kml] and prints where; and whatever file a run of
    this form has written holds [max 0 points_count] points, every one of
    them inside that polygon. *)
Theorem polygon_form_writes_points_inside {polygon : Type}
    `{Shapely polygon} `{Builtins} (fuel : nat) (fs : filesystem) (g : rng)
    (script keyword path count_s altitude_s speed_s : string)
    (points_count : Z) (alt speed : R) (poly : polygon) :
  int_of_str count_s = Some points_count ->
  float_of_str altitude_s = Some alt ->
  float_of_str speed_s = Some speed ->
  parse_polygon_from_kml fs path (mkWorld [] [])
  = (mkWorld [] [], Ok (Some poly)) ->
  lower keyword = "polygon"%string ->
  let out :=
    run fuel fs g [script; keyword; path; count_s; altitude_s; speed_s] in
  (forall doc,
     generate_random_kml fuel None None points_count alt speed (Some poly) g
     = Ok doc ->
     out = (mkWorld
              [("Polygon-based flythrough KML saved to "
                ++ polygon_file_name path)%string]
              [(polygon_file_name path, doc)], Ok tt)) /\
  (forall name doc,
     In (name, doc) (written (fst out)) ->
     name = polygon_file_name path /\
     Z.of_nat (List.length doc) = Z.max 0 points_count /\
     Forall (inside poly) (points_of doc)).
Proof.
  intros Hc Ha Hs Hparse Hk out. unfold out, run.
  rewrite (main_polygon_keyword _ _ _ _ _ _ _ _ _ Hk).
  rewrite (polygon_branch_valid _ _ _ _ _ _ _ _ _ _ _ Hc Ha Hs), Hparse.
  split.
  - intros doc ->. reflexivity.
  - intros name doc Hin.
    destruct (generate_random_kml fuel None None points_count alt speed
                (Some poly) g) as [doc' | e | ] eqn:Hgen.
    + cbn in Hin. destruct Hin as [[= <- <-] | []].
      split; [reflexivity | ].
      apply generate_inv in Hgen as (points & g' & Hsample & Hdoc & Hpts).
      cbn [sample_points] in Hsample. split.
      * apply build_flytos_inv in Hdoc as [-> _].
        apply polygon_loop_length in Hsample; [exact Hsample | cbn; lia].
      * rewrite Hpts.
        apply polygon_loop_inside in Hsample; [exact Hsample | constructor].
    + destruct e; cbn in Hin; contradiction.
    + cbn in Hin. contradiction.
Qed.

Lemma polygon_form_writes_points_inside_witness :
  exists doc,
    run (polygon := box) 2 shelf halves
      ["randomized_flyover_generator.py"; "polygon"; "square.kml"; "2";
       "1500"; "100"]%string
    = (mkWorld
         ["Polygon-based flythrough KML saved to flythrough_square.kml"%string]
         [("flythrough_square.kml"%string, doc)], Ok tt) /\
    Forall (inside ((0, 0, 2, 2) : box)) (points_of doc).
Proof.
  destruct (generate_polygon_total 2 None None 2 1500 100
              ((0, 0, 2, 2) : box) halves halves_inside_square)
    as (doc & Hgen & _); [lia | lra | ].
  exists doc.
  pose proof (polygon_form_writes_points_inside (polygon := box) 2 shelf
                halves "randomized_flyover_generator.py" "polygon"
                "square.kml" "2" "1500" "100" 2%Z 1500 100 (0, 0, 2, 2)
                eq_refl eq_refl eq_refl square_file_parses eq_refl)
    as [Hrun Hin].
  pose proof (Hrun doc Hgen) as Hout. split; [exact Hout | ].
  apply (Hin "flythrough_square.kml"%string doc).
  rewrite Hout. now left.
Defined.

(** The report of a missing file, on the files of the examples. *)
Lemma missing_polygon_file_reported_witness :
  run (polygon := box) 5 shelf halves
    ["randomized_flyover_generator.py"; "polygon"; "absent.kml"; "10";
     "1500"; "100"]%string
  = (mkWorld ["Error: File 'absent.kml' not found."%string] [], Ok tt).
Proof.
  apply (missing_polygon_file_reported (polygon := box) 5 shelf halves
           "randomized_flyover_generator.py" "absent.kml" "10" "1500" "100"
           10%Z 1500 100); reflexivity.
Defined.

(** The report of a document whose only polygon is outside its
    placemarks. *)
Lemma polygon_not_found_reported_witness :
  run (polygon := box) 5 shelf halves
    ["randomized_flyover_generator.py"; "polygon"; "stray.kml"; "10";
     "1500"; "100"]%string
  = (mkWorld ["Error: No polygon found in the KML file."%string] [], Ok tt).
Proof.
  apply (polygon_not_found_reported (polygon := box) 5 shelf halves
           "randomized_flyover_generator.py" "stray.kml" "10" "1500" "100"
           10%Z 1500 100 stray_polygon); try reflexivity.
  change (findall Placemark_tag stray_polygon)
    with [Elem Placemark_tag None [Elem (kml_ns ++ "Point")%string None []]].
  repeat constructor.
Defined.

(** X17. When the first polygon found in a placemark has no coordinates
    element, or one without text, the run of the polygon form ends on
    [AttributeError], which no handler catches: nothing is printed and no
    file is written. *)
Theorem polygon_without_coordinates_raises {polygon : Type}
    `{Shapely polygon} `{Builtins} (fuel : nat) (fs : filesystem) (g : rng)
    (script path count_s altitude_s speed_s : string) (c : Z) (a s : R)
    (root : Element) (before after : list Element)
    (placemark polygon_element : Element) :
  int_of_str count_s = Some c ->
  float_of_str altitude_s = Some a ->
  float_of_str speed_s = Some s ->
  fs path = Document root ->
  findall Placemark_tag root = before ++ placemark :: after ->
  Forall (fun p => find Polygon_tag p = None) before ->
  find Polygon_tag placemark = Some polygon_element ->
  find coordinates_tag polygon_element = None \/
  (exists coordinates_element,
     find coordinates_tag polygon_element = Some coordinates_element /\
     text coordinates_element = None) ->
  run fuel fs g
    [script; "polygon"%string; path; count_s; altitude_s; speed_s]
  = (mkWorld [] [], Raise AttributeError).
Proof.
  intros Hc Ha Hs Hfile Hall Hbefore Hpoly Hcoord.
  apply (polygon_parse_error_outcome fuel fs g script path count_s
           altitude_s speed_s c a s root AttributeError Hc Ha Hs Hfile).
  rewrite Hall, (placemark_loop_first _ _ _ _ Hbefore Hpoly).
  unfold polygon_of_element.
  destruct Hcoord as [-> | (ce & -> & ->)]; reflexivity.
Qed.

Lemma polygon_without_coordinates_raises_witness :
  run (polygon := box) 5 shelf halves
    ["randomized_flyover_generator.py"; "polygon"; "hollow.kml"; "10";
     "1500"; "100"]%string
  = (mkWorld [] [], Raise AttributeError).
Proof.
  apply (polygon_without_coordinates_raises (polygon := box) 5 shelf halves
           "randomized_flyover_generator.py" "hollow.kml" "10" "1500" "100"
           10%Z 1500 100 hollow_polygon []
           [] (Elem Placemark_tag None [Elem Polygon_tag None []])
           (Elem Polygon_tag None [])); try reflexivity.
  - constructor.
  - left. reflexivity.
Defined.

(** X18. When, in the coordinates of the first polygon found, one of the
    first two components of an item is not a number, the [ValueError] of
    [float] is caught by [main]: the run prints the message on invalid input
    (the one about count, altitude and speed), writes no file and raises
    nothing. *)
Theorem polygon_bad_coordinates_reported {polygon : Type}
    `{Shapely polygon} `{Builtins} (fuel : nat) (fs : filesystem) (g : rng)
    (script path count_s altitude_s speed_s : string) (c : Z) (a s : R)
    (root : Element) (before after : list Element)
    (placemark polygon_element coordinates_element : Element)
    (coordinates_text item component : string) :
  int_of_str count_s = Some c ->
  float_of_str altitude_s = Some a ->
  float_of_str speed_s = Some s ->
  fs path = Document root ->
  findall Placemark_tag root = before ++ placemark :: after ->
  Forall (fun p => find Polygon_tag p = None) before ->
  find Polygon_tag placemark = Some polygon_element ->
  find coordinates_tag polygon_element = Some coordinates_element ->
  text coordinates_element = Some coordinates_text ->
  In item (split_ws (strip coordinates_text)) ->
  In component (firstn 2 (split_on "," item)) ->
  float_of_str component = None ->
  run fuel fs g
    [script; "polygon"%string; path; count_s; altitude_s; speed_s]
  = (mkWorld [invalid_polygon_input] [], Ok tt).
Proof.
  intros Hc Ha Hs Hfile Hall Hbefore Hpoly Hcoord Htext Hitem Hcomp Hbad.
  apply (polygon_parse_error_outcome fuel fs g script path count_s
           altitude_s speed_s c a s root ValueError Hc Ha Hs Hfile).
  rewrite Hall, (placemark_loop_first _ _ _ _ Hbefore Hpoly).
  unfold polygon_of_element. rewrite Hcoord, Htext.
  now rewrite (coordinates_of_raises _ _ _ Hitem Hcomp Hbad).
Qed.

Lemma polygon_bad_coordinates_reported_witness :
  run (polygon := box) 5 shelf halves
    ["randomized_flyover_generator.py"; "polygon"; "worded.kml"; "10";
     "1500"; "100"]%string
  = (mkWorld [invalid_polygon_input] [], Ok tt).
Proof.
  apply (polygon_bad_coordinates_reported (polygon := box) 5 shelf halves
           "randomized_flyover_generator.py" "worded.kml" "10" "1500" "100"
           10%Z 1500 100 worded_polygon [] []
           (Elem Placemark_tag None
              [Elem Polygon_tag None
                 [Elem coordinates_tag (Some "0,0 1,north 1,1 0,0"%string)
                    []]])
           (Elem Polygon_tag None
              [Elem coordinates_tag (Some "0,0 1,north 1,1 0,0"%string) []])
           (Elem coordinates_tag (Some "0,0 1,north 1,1 0,0"%string) [])
           "0,0 1,north 1,1 0,0" "1,north" "north"); try reflexivity.
  - constructor.
  - change (split_ws (strip "0,0 1,north 1,1 0,0"))
      with ["0,0"; "1,north"; "1,1"; "0,0"]%string.
    right. left. reflexivity.
  - change (firstn 2 (split_on "," "1,north")) with ["1"; "north"]%string.
    right. left. reflexivity.
Defined.

(** X19. The keyword of the command line is read without regard to case:
    two command lines of eight, or of six, arguments whose keywords have the
    same lower-case form run alike. *)
Theorem keyword_case_is_ignored {polygon : Type} `{Shapely polygon}
    `{Builtins} (fuel : nat) (fs : filesystem) (g : rng)
    (script keyword keyword' : string) :
  lower keyword = lower keyword' ->
  (forall a1 a2 a3 a4 a5 a6,
     run fuel fs g [script; keyword; a1; a2; a3; a4; a5; a6]
     = run fuel fs g [script; keyword'; a1; a2; a3; a4; a5; a6]) /\
  (forall a1 a2 a3 a4,
     run fuel fs g [script; keyword; a1; a2; a3; a4]
     = run fuel fs g [script; keyword'; a1; a2; a3; a4]).
Proof.
  intros Hk. split; intros; unfold run, main;
    cbn [List.length Nat.ltb Nat.leb nth]; now rewrite Hk.
Qed.

Lemma keyword_case_is_ignored_witness :
  run (polygon := box) 5 shelf halves
    ["randomized_flyover_generator.py"; "POLYGON"; "absent.kml"; "10";
     "1500"; "100"]%string
  = run (polygon := box) 5 shelf halves
      ["randomized_flyover_generator.py"; "polygon"; "absent.kml"; "10";
       "1500"; "100"]%string.
Proof.
  refine (proj2 (keyword_case_is_ignored (polygon := box) 5 shelf halves
                   "randomized_flyover_generator.py" "POLYGON" "polygon" _)
            "absent.kml" "10" "1500" "100")%string.
  reflexivity.
Defined.

(** X20. Every run of the script is tidy: a run that ends normally has
    printed at least one line and written at most one file; a run cut short
    by an exception has printed nothing and written nothing, and the
    exception is never [ValueError]. *)
Theorem every_run_is_tidy {polygon : Type} `{Shapely polygon} `{Builtins}
    (fuel : nat) (fs : filesystem) (g : rng) (argv : list string) :
  tidy (run fuel fs g argv).
Proof.
  unfold run, main.
  destruct (List.length argv <? 2)%nat;
    [cbn; split; [discriminate | lia] | ].
  destruct (_ && _)%bool; [apply radius_branch_tidy | ].
  destruct (_ && _)%bool; [apply polygon_branch_tidy | ].
  destruct (List.length argv =? 7)%nat; [apply radius_branch_tidy | ].
  cbn. split; [discriminate | lia].
Qed.
